(** * The frontmatter pre-commit hook ([pre-commit.py])

    A shallow embedding of the hook and the properties of its frontmatter
    rewriting, its reading-time estimate, its selection of staged files and
    its error handling.

    Python values are modelled as follows.
    - A [str] is a list of characters; a character is a code point below
      256, held in an [ascii].  Text files are seen the way [open(path, 'r')]
      hands them over, that is with every line ending already [\n].
    - The working tree is a finite map from paths to file contents.
    - [subprocess.run], [uuid4] and [datetime.utcnow] are answered by an
      environment; every process started is recorded in a trace.
    - Exceptions are values of [exn]; the body of [main] runs in a state
      and exception monad, and [main] itself is the [try ... except]. *)

From Stdlib Require Import Ascii String ZArith Lia.
From Stdlib Require DecimalString SpecFloat.
From stdpp Require Import gmap list fin_maps strings.
From Equations Require Import Equations.

Local Open Scope Z_scope.
Local Open Scope list_scope.

(** ** Strings *)

Abbreviation str := (list ascii).

Definition s2l (s : string) : str := list_ascii_of_string s.

Definition LF : ascii := ascii_of_nat 10.
Definition CR : ascii := ascii_of_nat 13.
Definition TAB : ascii := ascii_of_nat 9.
Definition COLON : ascii := ascii_of_nat 58.
Definition DQUOTE : ascii := ascii_of_nat 34.
Definition HYPHEN : ascii := ascii_of_nat 45.

Definition code (c : ascii) : N := N_of_ascii c.

Definition in_range (lo hi : N) (c : ascii) : bool :=
  ((lo <=? code c) && (code c <=? hi))%N.

(** [str.isspace] on one character, which is also the class [\s] of [re]
    for a [str] pattern: the controls 9-13 and 28-31, the space, NEL (133)
    and the no-break space (160). *)
Definition isspace (c : ascii) : bool :=
  in_range 9 13 c || in_range 28 31 c || in_range 32 32 c
  || in_range 133 133 c || in_range 160 160 c.

(** The class [\w] of [re] for a [str] pattern: [str.isalnum] or the
    underscore.  Below 256 the alphanumerics are the ASCII digits and
    letters, the Latin-1 letters, the superscript digits and the vulgar
    fractions. *)
Definition isword (c : ascii) : bool :=
  in_range 48 57 c || in_range 65 90 c || in_range 97 122 c
  || in_range 95 95 c
  || in_range 170 170 c || in_range 178 179 c || in_range 181 181 c
  || in_range 185 186 c || in_range 188 190 c
  || in_range 192 214 c || in_range 216 246 c || in_range 248 255 c.

(** The character [.] of [re] without [DOTALL]: anything but [\n]. *)
Definition isdot (c : ascii) : bool := negb (Ascii.eqb c LF).

(** [s.startswith(p)] *)
Fixpoint startswith (p s : str) : bool :=
  match p, s with
  | [], _ => true
  | _ :: _, [] => false
  | a :: p', b :: s' => Ascii.eqb a b && startswith p' s'
  end.

(** [s.endswith(p)] *)
Definition endswith (p s : str) : bool := startswith (rev p) (rev s).

(** The longest prefix of [s] whose characters are all in the class [f],
    and what follows it: one greedy [f*] of a pattern. *)
Fixpoint span (f : ascii -> bool) (s : str) : str * str :=
  match s with
  | [] => ([], [])
  | c :: s' =>
      if f c then let '(a, b) := span f s' in (c :: a, b) else ([], s)
  end.

(** [text.split()]: the maximal runs of characters that are not
    whitespace.  [cur] holds the current run, reversed. *)
Fixpoint split_from (cur : str) (s : str) : list str :=
  match s with
  | [] => match cur with [] => [] | _ => [rev cur] end
  | c :: s' =>
      if isspace c
      then match cur with
           | [] => split_from [] s'
           | _ => rev cur :: split_from [] s'
           end
      else split_from (c :: cur) s'
  end.

Definition split (s : str) : list str := split_from [] s.

(** The one-character line boundaries of [str.splitlines]; [\r\n] counts
    as one boundary and is handled in [splitlines_from]. *)
Definition islinebreak (c : ascii) : bool :=
  in_range 10 13 c || in_range 28 30 c || in_range 133 133 c.

(** [text.splitlines()]: a last line without a boundary after it is kept,
    no empty line is added after a final boundary. *)
Fixpoint splitlines_from (cur : str) (s : str) : list str :=
  match s with
  | [] => match cur with [] => [] | _ => [rev cur] end
  | c :: s' =>
      if islinebreak c
      then match s' with
           | d :: s'' =>
               if Ascii.eqb c CR && Ascii.eqb d LF
               then rev cur :: splitlines_from [] s''
               else rev cur :: splitlines_from [] s'
           | [] => [rev cur]
           end
      else splitlines_from (c :: cur) s'
  end.

Definition splitlines (s : str) : list str := splitlines_from [] s.

(** [s.strip] of the double quote: the quotes at both ends go. *)
Definition strip_quotes (s : str) : str :=
  let is_q c := Ascii.eqb c DQUOTE in
  rev (snd (span is_q (rev (snd (span is_q s))))).

(** [s.replace(old, new)]: every occurrence of [old], found from the left
    and without overlap, becomes [new]; an empty [old] matches before each
    character and at the end. *)
Fixpoint intersperse_with (new s : str) : str :=
  match s with
  | [] => new
  | c :: s' => new ++ c :: intersperse_with new s'
  end.

Equations? replace_from (old new s : str) : str by wf (length s) lt :=
  replace_from old new [] := [];
  replace_from old new (c :: s') with startswith old (c :: s') => {
    | true := new ++ replace_from old new (drop (Nat.pred (length old)) s');
    | false := c :: replace_from old new s' }.
Proof. all: rewrite ?length_drop; simpl; lia. Qed.

Definition replace (old new s : str) : str :=
  match old with
  | [] => intersperse_with new s
  | _ => replace_from old new s
  end.

(** ** The two regular expressions *)

(** The frontmatter delimiter [---\n]. *)
Definition delim : str := s2l "---" ++ [LF].

(** The lazy group [(.*?)] under [DOTALL], followed by the literal [d]:
    the shortest prefix of [s] after which [d] stands. *)
Fixpoint lazy_until (d s : str) : option str :=
  if startswith d s then Some []
  else match s with
       | [] => None
       | c :: s' => option_map (cons c) (lazy_until d s')
       end.

(** [re.search(r'---\n(.*?)---\n', content, re.DOTALL)], as the group 1 of
    the match: the start positions are tried from the left, and at each
    one the literal, the lazy group and the literal again. *)
Fixpoint search_frontmatter (content : str) : option str :=
  let here :=
    if startswith delim content
    then lazy_until delim (drop (length delim) content)
    else None in
  match here with
  | Some g => Some g
  | None =>
      match content with
      | [] => None
      | _ :: rest => search_frontmatter rest
      end
  end.

(** One attempt of the pattern [{key}:\s*.*] at the start of [s], for a
    [key] whose characters stand for themselves in a pattern: the length
    of the match.  The greedy [\s*] takes the whole run of whitespace, line
    ends included, and the greedy [.*] the rest of the line it stops in;
    neither ever has to give anything back. *)
Definition match_key_at (key s : str) : option nat :=
  if startswith (key ++ [COLON]) s
  then
    let after_key := drop (length key + 1) s in
    let '(ws, after_ws) := span isspace after_key in
    let '(line, _) := span isdot after_ws in
    Some (length key + 1 + length ws + length line)%nat
  else None.

(** [re.sub(rf'{key}:\s*.*', repl, s)] for a replacement text [repl] free
    of backslashes, which [re] then inserts as it is. *)
Equations? re_sub_key (key repl s : str) : str by wf (length s) lt :=
  re_sub_key key repl [] := [];
  re_sub_key key repl (c :: s') with match_key_at key (c :: s') => {
    | Some n := repl ++ re_sub_key key repl (drop (Nat.pred n) s');
    | None := c :: re_sub_key key repl s' }.
Proof. all: rewrite ?length_drop; simpl; lia. Qed.

(** [re.match] of [main], as the groups 1 and 2: group 1 is a greedy
    [\w+], a colon and a greedy [\s*] follow, and group 2 is a greedy
    run of [.], the rest of the line. *)
Definition match_key_value (line : str) : option (str * str) :=
  let '(key, rest) := span isword line in
  match key, rest with
  | _ :: _, c :: rest' =>
      if Ascii.eqb c COLON
      then Some (key, fst (span isdot (snd (span isspace rest'))))
      else None
  | _, _ => None
  end.

(** ** True division and [int] *)

(** A binary64 number that is not negative, as the pair [(m, e)] that
    stands for [m * 2^e]. *)
Definition float : Type := Z * Z.

(** The integer part of the binary logarithm of [a/b], for [a] and [b]
    positive. *)
Definition quot_log2 (a b : Z) : Z :=
  let d := Z.log2 a - Z.log2 b in
  if b * 2 ^ Z.max 0 d <=? a * 2 ^ Z.max 0 (- d) then d else d - 1.

(** [a / b] on two ints, [a] not negative and [b] positive: the binary64
    number nearest to the exact quotient, a tie going to the even
    mantissa.  The mantissa has 53 bits.  A Python [str] has fewer than
    [2^63] characters, which keeps the quotients of this program in the
    normal range of binary64: there is no underflow and no overflow to
    model. *)
Definition true_divide (a b : Z) : float :=
  if a =? 0 then (0, 0)
  else
    let e := quot_log2 a b - 52 in
    let num := a * 2 ^ Z.max 0 (- e) in
    let den := b * 2 ^ Z.max 0 e in
    let m0 := num / den in
    let r := num mod den in
    let up := (den <? 2 * r) || ((den =? 2 * r) && Z.odd m0) in
    (if up then m0 + 1 else m0, e).

(** [int(x)] on such a number: the fraction is cut off. *)
Definition int_of_float (x : float) : Z :=
  let '(m, e) := x in
  if 0 <=? e then m * 2 ^ e else m / 2 ^ (- e).

(** [str(n)] on an int. *)
Definition str_of_int (n : Z) : str :=
  s2l (DecimalString.NilZero.string_of_int (Z.to_int n)).

(** ** [calculate_reading_time] *)

Definition calculate_reading_time (text : str) : Z :=
  let words := Z.of_nat (length (split text)) in
  int_of_float (true_divide words 200) + 1.

(** The same computation from the number of words on. *)
Definition reading_time_of_words (words : Z) : Z :=
  int_of_float (true_divide words 200) + 1.

(** ** The world of the hook *)

(** The exceptions of the model.  [KeyboardInterrupt] is the one that is
    not an [Exception]. *)
Inductive exn : Type :=
| CalledProcessError (cmd : list str) (returncode : Z)
| FileNotFoundError (path : str)
| IndexError
| KeyboardInterrupt.

Definition is_CalledProcessError (e : exn) : bool :=
  match e with CalledProcessError _ _ => true | _ => false end.

(** [isinstance(e, Exception)] *)
Definition is_Exception (e : exn) : bool :=
  match e with KeyboardInterrupt => false | _ => true end.

(** What one [subprocess.run] meets: the process ends with a return code
    and an output, or its program is not found, or the user interrupts
    it. *)
Inductive outcome : Type :=
| Completed (returncode : Z) (stdout : str)
| NotFound
| Interrupted.

(** The environment.  Each answer is indexed by the number of processes
    started so far, which serves as the time. *)
Record Env : Type := {
  run_outcome : nat -> list str -> outcome;
  uuid4 : nat -> str;
  utcnow_isoformat : nat -> str
}.

(** What [print] writes, one constructor for each message of the
    source:
    - [Checking {file}]
    - [Adding id to {file}]
    - [{file} modDateTime updated]
    - [First release of {file}, draft set to false and modDateTime removed]
    - [Error: {e}]
    - [An unexpected error occurred: {e}] *)
Inductive message : Type :=
| MsgChecking (file : str)
| MsgAddingId (file : str)
| MsgModUpdated (file : str)
| MsgFirstRelease (file : str)
| MsgError (e : exn)
| MsgUnexpected (e : exn).

Record World : Type := {
  files : gmap str str;
  printed : list message;
  trace : list (list str)
}.

Inductive result (A : Type) : Type :=
| Ok (a : A)
| Raise (e : exn).
Arguments Ok {A} a.
Arguments Raise {A} e.

(** The state and exception monad of the body of [main]. *)
Definition M (A : Type) : Type := World -> World * result A.

Definition ret {A} (a : A) : M A := fun w => (w, Ok a).

Definition raise {A} (e : exn) : M A := fun w => (w, Raise e).

Definition bind {A B} (c : M A) (k : A -> M B) : M B :=
  fun w =>
    match c w with
    | (w', Ok a) => k a w'
    | (w', Raise e) => (w', Raise e)
    end.

Notation "'let*' x ':=' c 'in' k" := (bind c (fun x => k))
  (at level 10, x name, c at level 100, k at level 200).
Notation "c '>>' k" := (bind c (fun _ => k))
  (at level 65, right associativity).

Definition print (m : message) : M unit :=
  fun w => ({| files := files w; printed := printed w ++ [m]; trace := trace w |}, Ok tt).

(** [open(path, 'r')] and [f.read()] *)
Definition read_file (path : str) : M str :=
  fun w =>
    match files w !! path with
    | Some content => (w, Ok content)
    | None => (w, Raise (FileNotFoundError path))
    end.

(** [open(path, 'w')] and [f.write(content)] *)
Definition write_file (path content : str) : M unit :=
  fun w => ({| files := <[path := content]> (files w); printed := printed w; trace := trace w |}, Ok tt).

(** [subprocess.run(cmd, check=True)]: the command joins the trace, and a
    return code other than zero raises. *)
Definition subprocess_run (env : Env) (cmd : list str) : M str :=
  fun w =>
    let w' := {| files := files w; printed := printed w; trace := trace w ++ [cmd] |} in
    match run_outcome env (length (trace w)) cmd with
    | Completed code out =>
        if code =? 0 then (w', Ok out) else (w', Raise (CalledProcessError cmd code))
    | NotFound => (w', Raise (FileNotFoundError (hd [] cmd)))
    | Interrupted => (w', Raise KeyboardInterrupt)
    end.

Definition now (env : Env) : M str :=
  fun w => (w, Ok (utcnow_isoformat env (length (trace w)))).

Definition fresh_uuid (env : Env) : M str :=
  fun w => (w, Ok (uuid4 env (length (trace w)))).

(** [for x in l: body] *)
Fixpoint for_each {A} (body : A -> M unit) (l : list A) : M unit :=
  match l with
  | [] => ret tt
  | x :: l' => body x >> for_each body l'
  end.

(** ** The functions of the hook *)

(** The values that the hook puts in an [updates] dict. *)
Inductive pyvalue : Type :=
| PyStr (s : str)
| PyInt (n : Z).

(** A value inside an f-string. *)
Definition format (v : pyvalue) : str :=
  match v with
  | PyStr s => s
  | PyInt n => str_of_int n
  end.

Definition get_frontmatter (filepath : str) : M str :=
  let* content := read_file filepath in
  match search_frontmatter content with
  | Some group1 => ret group1
  | None => ret []
  end.

(** The loop over [updates.items()]: one [re.sub] for each key, in the
    order of the dict.  The replacement is [f'{key}: {value}']. *)
Definition apply_updates (updates : list (str * pyvalue)) (frontmatter : str) : str :=
  fold_left
    (fun new_frontmatter '(key, value) =>
       re_sub_key key (key ++ s2l ": " ++ format value) new_frontmatter)
    updates frontmatter.

Definition update_frontmatter (filepath : str) (updates : list (str * pyvalue)) : M unit :=
  let* content := read_file filepath in
  match search_frontmatter content with
  | Some frontmatter =>
      let new_frontmatter := apply_updates updates frontmatter in
      write_file filepath (replace frontmatter new_frontmatter content)
  | None => ret tt
  end.

(** The dict that [main] builds from the lines of the frontmatter. *)
Definition parse_frontmatter (frontmatter_str : str) : gmap str str :=
  fold_left
    (fun frontmatter line =>
       match match_key_value line with
       | Some (group1, group2) => <[group1 := strip_quotes group2]> frontmatter
       | None => frontmatter
       end)
    (splitlines frontmatter_str) ∅.

Definition git_add (env : Env) (file : str) : M unit :=
  subprocess_run env [s2l "git"; s2l "add"; file] >> ret tt.

(** The three steps on one file, in the order of the loop body. *)
Definition id_step (env : Env) (file : str) (frontmatter : gmap str str) : M unit :=
  match frontmatter !! s2l "id" with
  | None =>
      let* new_id := fresh_uuid env in
      print (MsgAddingId file) >>
      update_frontmatter file [(s2l "id", PyStr new_id)] >>
      git_add env file
  | Some _ => ret tt
  end.

Definition draft_step (env : Env) (file : str) (frontmatter : gmap str str) : M unit :=
  if bool_decide (frontmatter !! s2l "draft" = Some (s2l "false")) then
    print (MsgModUpdated file) >>
    let* t := now env in
    update_frontmatter file [(s2l "modDatetime", PyStr (t ++ s2l "Z"))] >>
    git_add env file
  else if bool_decide (frontmatter !! s2l "draft" = Some (s2l "first")) then
    print (MsgFirstRelease file) >>
    update_frontmatter file
      [(s2l "draft", PyStr (s2l "false")); (s2l "modDatetime", PyStr [])] >>
    git_add env file
  else ret tt.

Definition reading_time_step (env : Env) (file : str) : M unit :=
  let* content := read_file file in
  let reading_time := calculate_reading_time content in
  update_frontmatter file [(s2l "readingTime", PyInt reading_time)] >>
  git_add env file.

Definition process_file (env : Env) (file : str) : M unit :=
  print (MsgChecking file) >>
  let* frontmatter_str := get_frontmatter file in
  let frontmatter := parse_frontmatter frontmatter_str in
  id_step env file frontmatter >>
  draft_step env file frontmatter >>
  reading_time_step env file.

(** The condition of the list comprehension on one line of the output of
    [git diff --cached --name-status]. *)
Definition selected (line : str) : bool :=
  startswith (s2l "M") line && endswith (s2l ".mdx") line.

(** [line.split()[1]] *)
Definition second_field (line : str) : result str :=
  match split line with
  | _ :: field :: _ => Ok field
  | _ => Raise IndexError
  end.

(** The list comprehension that gives [files]. *)
Fixpoint collect_files (lines : list str) : result (list str) :=
  match lines with
  | [] => Ok []
  | line :: rest =>
      if selected line then
        match second_field line with
        | Ok file =>
            match collect_files rest with
            | Ok l => Ok (file :: l)
            | Raise e => Raise e
            end
        | Raise e => Raise e
        end
      else collect_files rest
  end.

Definition staged_files (stdout : str) : M (list str) :=
  match collect_files (splitlines stdout) with
  | Ok l => ret l
  | Raise e => raise e
  end.

Definition git_diff : list str :=
  [s2l "git"; s2l "diff"; s2l "--cached"; s2l "--name-status"].
Definition git_update_index : list str :=
  [s2l "git"; s2l "update-index"; s2l "--again"].
Definition lint_staged : list str :=
  [s2l "bun"; s2l "run"; s2l "lint-staged"].

(** The body of the [try]. *)
Definition main_body (env : Env) : M unit :=
  let* stdout := subprocess_run env git_diff in
  let* staged := staged_files stdout in
  for_each (process_file env) staged >>
  subprocess_run env git_update_index >>
  subprocess_run env lint_staged >>
  ret tt.

(** [main]: the [try] with its two [except] clauses.  The second
    component is the exception that leaves [main], if any. *)
Definition main (env : Env) (w : World) : World * option exn :=
  match main_body env w with
  | (w', Ok _) => (w', None)
  | (w', Raise e) =>
      if is_CalledProcessError e then (fst (print (MsgError e) w'), None)
      else if is_Exception e then (fst (print (MsgUnexpected e) w'), None)
      else (w', Some e)
  end.

(** ** Running the hook on examples *)

(** An environment in which every process succeeds and prints [out] when
    it is [git diff]. *)
Definition quiet_env (out : str) : Env :=
  {| run_outcome := fun _ cmd =>
       if bool_decide (cmd = git_diff) then Completed 0 out else Completed 0 [];
     uuid4 := fun _ => s2l "3f2b8c1e-6d4a-4e0b-9c57-1a2b3c4d5e6f";
     utcnow_isoformat := fun _ => s2l "2024-05-01T10:20:30.123456" |}.

Definition one_file (path content : str) : World :=
  {| files := {[ path := content ]}; printed := []; trace := [] |}.

(** Lines of a text file. *)
Definition text (lines : list string) : str :=
  concat (map (fun l => s2l l ++ [LF]) lines).

Definition status_line (status path : string) : str :=
  s2l status ++ TAB :: s2l path ++ [LF].

Definition content_after (env : Env) (w : World) (path : str) : option str :=
  files (fst (main env w)) !! path.


(** ** Notions used in the statements *)

(** [p in s] *)
Fixpoint contains (p s : str) : bool :=
  startswith p s
  || match s with
     | [] => false
     | _ :: s' => contains p s'
     end.

(** [p] stands right after some [\n] of [s]; with [startswith], this
    tells whether a line of [s] begins with [p], the lines being those
    that [.] of [re] stays in. *)
Fixpoint starts_after_newline (p s : str) : bool :=
  match s with
  | [] => false
  | c :: s' => (Ascii.eqb c LF && startswith p s') || starts_after_newline p s'
  end.

Definition starts_a_line (p s : str) : bool :=
  startswith p s || starts_after_newline p s.

(** The frontmatter block [s] has a line for [key]. *)
Definition has_key_line (key s : str) : bool :=
  starts_a_line (key ++ [COLON]) s.

Definition BACKSLASH : ascii := ascii_of_nat 92.

(** The updates that [apply_updates] stands for: the key is made of word
    characters, each its own pattern, and the formatted value has no
    backslash, so that [re] inserts it as it is.  All the updates of
    the hook are of this kind. *)
Definition plain_update (u : str * pyvalue) : Prop :=
  forallb isword (fst u) = true
  /\ forallb (fun c => negb (Ascii.eqb c BACKSLASH)) (format (snd u)) = true.

(** A value that stays on its line. *)
Definition one_line (v : pyvalue) : Prop :=
  forallb isdot (format v) = true.

(** The number of words from which on [int(words / 200)] can exceed the
    floor of the quotient. *)
Definition exact_below : Z := 200 * 2 ^ 46 + 199.

(** A text of [n] words. *)
Definition many_words (n : nat) : str := concat (repeat (s2l "a ") n).

(** [s.find(p)]: the position of the first occurrence of [p] in [s]. *)
Fixpoint find (p s : str) : option nat :=
  if startswith p s then Some 0%nat
  else match s with
       | [] => None
       | _ :: s' => option_map S (find p s')
       end.

(** The text between the first [---\n] of a document, wherever it stands,
    and the next [---\n] after it; empty when the document has no two
    such delimiters. *)
Definition between_delimiters (content : str) : str :=
  match find delim content with
  | None => []
  | Some i =>
      let rest := drop (i + length delim) content in
      match find delim rest with
      | None => []
      | Some j => take j rest
      end
  end.

(** Process number [n] of a run was [cmd] and ended with the return code
    [code], which is not zero. *)
Definition failed_process (env : Env) (n : nat) (cmd : list str) (code : Z) : Prop :=
  exists out, run_outcome env n cmd = Completed code out /\ code <> 0.

(** A computation that raises [CalledProcessError] for every process of
    its own that failed. *)
Definition reports_failures (env : Env) {A} (c : M A) : Prop :=
  forall w,
    exists new,
      trace (fst (c w)) = trace w ++ new
      /\ forall i cmd code,
           new !! i = Some cmd ->
           failed_process env (length (trace w) + i) cmd code ->
           snd (c w) = Raise (CalledProcessError cmd code).

(** An environment in which [git diff] itself fails. *)
Definition no_repository_env : Env :=
  {| run_outcome := fun _ _ => Completed 128 [];
     uuid4 := fun _ => [];
     utcnow_isoformat := fun _ => [] |}.

(** The part of the loop body that comes before the reading time. *)
Definition before_reading_time (env : Env) (file : str) : M unit :=
  print (MsgChecking file) >>
  let* frontmatter_str := get_frontmatter file in
  let frontmatter := parse_frontmatter frontmatter_str in
  id_step env file frontmatter >>
  draft_step env file frontmatter.

(** The key [key] of the frontmatter of a document, as [main] reads it. *)
Definition frontmatter_value (key : string) (content : str) : option str :=
  let frontmatter_str :=
    match search_frontmatter content with
    | Some group1 => group1
    | None => []
    end in
  parse_frontmatter frontmatter_str !! s2l key.

(** The documents of the examples. *)
Definition post_without_id : str :=
  text ["---"; "title: Hello"; "draft: true"; "---"; "Body."].

Definition post_first_release : str :=
  text ["---"; "id: 7"; "modDatetime:"; "draft: first"; "---"; "Body."].

Definition post_published : str :=
  text ["---"; "id: 7"; "draft: false"; "---"; "Body."].

Definition post_published_stamped : str :=
  text ["---"; "id: 7"; "draft: false"; "readingTime:";
        "modDatetime: 2020-01-01T00:00:00Z"; "---"; "Body."].

Definition post_counted : str :=
  text ["---"; "id: 7"; "draft: true"; "readingTime: 0"; "---"] ++ many_words 195.

(** One line of [git diff --cached --name-status] for a status with one
    path, and the output for a list of such entries. *)
Definition entry_line (entry : str * str) : str :=
  fst entry ++ TAB :: snd entry.

Definition name_status (entries : list (str * str)) : str :=
  concat (map (fun entry => entry_line entry ++ [LF]) entries).

(** A field of such a line: not empty and without whitespace. *)
Definition field (s : str) : Prop :=
  s <> [] /\ forallb (fun c => negb (isspace c)) s = true.

(** The entries that the hook is meant to process. *)
Definition modified_mdx (entry : str * str) : bool :=
  startswith (s2l "M") (fst entry) && endswith (s2l ".mdx") (snd entry).

(** ** Notions used in the further properties *)

(** Process number [n] of a run was [cmd] and returned zero. *)
Definition succeeded (env : Env) (n : nat) (cmd : list str) : Prop :=
  exists out, run_outcome env n cmd = Completed 0 out.

(** The exception that [subprocess.run(cmd, check=True)] raises on an
    outcome, if any. *)
Definition raised_by (cmd : list str) (o : outcome) : option exn :=
  match o with
  | Completed code _ =>
      if code =? 0 then None else Some (CalledProcessError cmd code)
  | NotFound => Some (FileNotFoundError (hd [] cmd))
  | Interrupted => Some KeyboardInterrupt
  end.

(** A computation that stops at the first process that does not return
    zero: every process before the last one it started returned zero, as
    did the last one when the computation returns; a process that did not
    return zero makes the computation raise the exception of that process;
    and [KeyboardInterrupt] comes from nowhere but an interrupted
    process, the last one started. *)
Definition stops_at_failure (env : Env) {A} (c : M A) : Prop :=
  forall w,
    exists new,
      trace (fst (c w)) = trace w ++ new
      /\ (forall i cmd,
            new !! i = Some cmd ->
            (S i < length new)%nat \/ (exists a, snd (c w) = Ok a) ->
            raised_by cmd (run_outcome env (length (trace w) + i) cmd) = None)
      /\ (forall i cmd e,
            new !! i = Some cmd ->
            raised_by cmd (run_outcome env (length (trace w) + i) cmd) = Some e ->
            snd (c w) = Raise e)
      /\ (snd (c w) = Raise KeyboardInterrupt ->
          exists cmd,
            last new = Some cmd
            /\ run_outcome env (length (trace w) + Nat.pred (length new)) cmd
               = Interrupted).

(** A computation that keeps the set of the files and writes to no path
    outside [P]. *)
Definition writes_within (P : str -> Prop) {A} (c : M A) : Prop :=
  forall w,
    dom (files (fst (c w))) = dom (files w)
    /\ forall p, ~ P p -> files (fst (c w)) !! p = files w !! p.

(** What [main] does after [git diff] has printed [stdout]. *)
Definition after_git_diff (env : Env) (stdout : str) : M unit :=
  let* staged := staged_files stdout in
  for_each (process_file env) staged >>
  subprocess_run env git_update_index >>
  subprocess_run env lint_staged >>
  ret tt.

(** An environment without the lint runner: [bun] is not installed, and
    git has nothing staged. *)
Definition no_bun_env : Env :=
  {| run_outcome := fun _ cmd =>
       if bool_decide (cmd = lint_staged) then NotFound else Completed 0 [];
     uuid4 := fun _ => [];
     utcnow_isoformat := fun _ => [] |}.

(** An environment in which the user interrupts [git update-index]. *)
Definition interrupted_env : Env :=
  {| run_outcome := fun _ cmd =>
       if bool_decide (cmd = git_update_index) then Interrupted else Completed 0 [];
     uuid4 := fun _ => [];
     utcnow_isoformat := fun _ => [] |}.

Definition two_files (path1 content1 path2 content2 : str) : World :=
  {| files := <[path1 := content1]> {[ path2 := content2 ]};
     printed := []; trace := [] |}.

Definition post_regular : str :=
  text ["---"; "id: 7"; "title: Hello"; "draft: false";
        "modDatetime: 2023-01-01T00:00:00Z"; "readingTime: 9"; "---";
        "Some words here."].

Definition post_bare : str := text ["# Notes"; "No metadata here."].

(** What a match of the pattern of [update_frontmatter] leaves of the
    text [t] that follows the colon: the whitespace goes, and the rest of
    the line in which the whitespace ends. *)
Definition after_match (t : str) : str :=
  snd (span isdot (snd (span isspace t))).

(** A text that begins with a character that is not whitespace. *)
Definition begins_with_text (s : str) : Prop :=
  match s with
  | c :: _ => isspace c = false
  | [] => False
  end.

(** A frontmatter block written from pairs of a key and a value, one line
    [key: value] for each. *)
Definition render_line (kv : str * str) : str :=
  fst kv ++ s2l ": " ++ snd kv.

Definition render_block (kvs : list (str * str)) : str :=
  concat (map (fun kv => render_line kv ++ [LF]) kvs).

(** The pairs that such a line gives back: the key is a word, the value
    has no line boundary and does not begin with whitespace. *)
Definition regular_pair (kv : str * str) : Prop :=
  fst kv <> []
  /\ forallb isword (fst kv) = true
  /\ forallb (fun c => negb (islinebreak c)) (snd kv) = true
  /\ (snd kv = [] \/ begins_with_text (snd kv)).

(** The dict of the pairs: a later pair replaces an earlier one of the
    same key, and the quotes around a value are stripped. *)
Definition dict_of (kvs : list (str * str)) : gmap str str :=
  fold_left (fun d kv => <[fst kv := strip_quotes (snd kv)]> d) kvs ∅.

(** An environment in which every process returns zero. *)
Definition all_succeed (env : Env) : Prop :=
  forall n cmd, succeeded env n cmd.

(** The two messages of the [except] clauses. *)
Definition is_error (m : message) : bool :=
  match m with
  | MsgError _ | MsgUnexpected _ => true
  | _ => false
  end.

(** A computation that returns whenever the files of [paths] are there:
    it keeps the set of the files and prints no error message. *)
Definition completes (paths : list str) {A} (c : M A) : Prop :=
  forall w,
    (forall f, In f paths -> is_Some (files w !! f)) ->
    (exists a, snd (c w) = Ok a)
    /\ dom (files (fst (c w))) = dom (files w)
    /\ exists msgs,
         printed (fst (c w)) = printed w ++ msgs
         /\ Forall (fun m => is_error m = false) msgs.

(** The rounding inside [true_divide]: the integer nearest to
    [num / den], a tie going to the even one. *)
Definition round_half_even (num den : Z) : Z :=
  let m0 := num / den in
  let r := num mod den in
  if (den <? 2 * r) || ((den =? 2 * r) && Z.odd m0) then m0 + 1 else m0.

(** The pairs of a block with the value of [key] set to [value]. *)
Definition set_value (key value : str) (kv : str * str) : str * str :=
  if bool_decide (fst kv = key) then (key, value) else kv.

(** A line of a block on which the substitution for [key] works as
    meant: the value begins with text and stays on its line, and the line
    of another key does not hold the text [key:]. *)
Definition regular_line_for (key : str) (kv : str * str) : Prop :=
  begins_with_text (snd kv)
  /\ forallb isdot (snd kv) = true
  /\ (fst kv <> key -> contains (key ++ [COLON]) (render_line kv) = false).

(** A text without backslash: as the template of [re.sub] it stands for
    itself, with no escape and no group reference to expand. *)
Definition no_backslash (s : str) : Prop :=
  forallb (fun c => negb (Ascii.eqb c BACKSLASH)) s = true.

(** ** The functions on examples *)

Example ex_search : search_frontmatter (s2l "---" ++ LF :: s2l "id: 1" ++ LF :: s2l "---" ++ LF :: s2l "body")
  = Some (s2l "id: 1" ++ [LF]).
Proof. vm_compute. reflexivity. Qed.

Example ex_sub : re_sub_key (s2l "id") (s2l "id: NEW") (s2l "uuid: 5" ++ LF :: s2l "id:" ++ LF :: s2l "title: x" ++ [LF])
  = s2l "uuid: NEW" ++ LF :: s2l "id: NEW" ++ [LF].
Proof. vm_compute. reflexivity. Qed.

Example ex_replace : replace (s2l "ab") (s2l "X") (s2l "abcabab") = s2l "XcXX".
Proof. vm_compute. reflexivity. Qed.

Example ex_replace_empty : replace [] (s2l "-") (s2l "abc") = s2l "-a-b-c-".
Proof. vm_compute. reflexivity. Qed.

Example ex_split : split (s2l " a  bc " ++ LF :: s2l "d") = [s2l "a"; s2l "bc"; s2l "d"].
Proof. vm_compute. reflexivity. Qed.

Example ex_splitlines : splitlines (s2l "a" ++ CR :: LF :: LF :: s2l "b" ++ [LF]) = [s2l "a"; []; s2l "b"].
Proof. vm_compute. reflexivity. Qed.

Example ex_true_divide_1000 : true_divide 1000 200 = (5 * 2 ^ 50, -50).
Proof. vm_compute. reflexivity. Qed.

(** [true_divide] against the division of the Standard Library's
    specification of IEEE 754 arithmetic, at binary64. *)
Example ex_true_divide_ieee :
  map (fun a => SpecFloat.SFdiv 53 1024
                  (SpecFloat.S754_finite false (Z.to_pos a) 0)
                  (SpecFloat.S754_finite false 200 0))
      [1; 199; 1000; 123456789; 14073748835532998; 14073748835532999]
  = map (fun a => let '(m, e) := true_divide a 200 in
                  SpecFloat.S754_finite false (Z.to_pos m) e)
      [1; 199; 1000; 123456789; 14073748835532998; 14073748835532999].
Proof. vm_compute. reflexivity. Qed.

Example ex_reading_time : map reading_time_of_words [0; 1; 199; 200; 399; 400; 123456]
  = [1; 1; 1; 2; 2; 3; 618].
Proof. vm_compute. reflexivity. Qed.

Example ex_str_of_int : map str_of_int [0; 7; 618] = [s2l "0"; s2l "7"; s2l "618"].
Proof. vm_compute. reflexivity. Qed.

Example ex_main_regular :
  content_after (quiet_env (status_line "M" "post.mdx"))
    (one_file (s2l "post.mdx")
       (text ["---"; "id: 7"; "title: Hello"; "draft: false";
              "modDatetime: 2023-01-01T00:00:00Z"; "readingTime: 9"; "---";
              "Some words here."]))
    (s2l "post.mdx")
  = Some (text ["---"; "id: 7"; "title: Hello"; "draft: false";
              "modDatetime: 2024-05-01T10:20:30.123456Z"; "readingTime: 1"; "---";
              "Some words here."]).
Proof. vm_compute. reflexivity. Qed.

(** ** The reading time *)

Section ReadingTime.

Lemma quot_log2_200_upper (a n : Z) :
  0 < a -> 0 <= n -> a < 200 * 2 ^ n -> quot_log2 a 200 < n.
Proof.
  intros Ha Hn Hlt. unfold quot_log2.
  change (Z.log2 200) with 7.
  assert (Hlog : Z.log2 a < n + 8).
  { apply Z.log2_lt_pow2; [lia|].
    replace (n + 8) with (8 + n) by lia. rewrite Z.pow_add_r by lia.
    change (2 ^ 8) with 256.
    assert (0 < 2 ^ n) by (apply Z.pow_pos_nonneg; lia). lia. }
  destruct (Z.leb_spec (200 * 2 ^ Z.max 0 (Z.log2 a - 7))
                       (a * 2 ^ Z.max 0 (- (Z.log2 a - 7)))) as [Hle|Hgt]; [|lia].
  destruct (Z.eq_dec (Z.log2 a - 7) n) as [E|NE]; [|lia].
  exfalso. rewrite E in Hle.
  rewrite (Z.max_r 0 n) in Hle by lia.
  rewrite (Z.max_l 0 (- n)) in Hle by lia.
  change (2 ^ 0) with 1 in Hle. lia.
Qed.

(** Rounding [a * 2^k / 200] to an integer and cutting the last [k] bits
    gives the floor of [a / 200] when the remainder of [a] leaves room
    for half a unit. *)
Lemma round_div_200 (a k : Z) :
  0 <= a -> 0 <= k ->
  a mod 200 * 2 ^ k + 100 < 200 * 2 ^ k ->
  let num := a * 2 ^ k in
  let m0 := num / 200 in
  let r := num mod 200 in
  forall m, (m = m0 \/ (m = m0 + 1 /\ 200 <= 2 * r)) ->
  m / 2 ^ k = a / 200.
Proof.
  intros Ha Hk Hroom num m0 r m Hm.
  assert (HP : 0 < 2 ^ k) by (apply Z.pow_pos_nonneg; lia).
  set (P := 2 ^ k) in *.
  pose proof (Z.div_mod a 200 ltac:(lia)) as Ea.
  pose proof (Z.mod_pos_bound a 200 ltac:(lia)) as Ba.
  pose proof (Z.div_mod num 200 ltac:(lia)) as En.
  pose proof (Z.mod_pos_bound num 200 ltac:(lia)) as Bn.
  fold m0 in En. fold r in En, Bn.
  set (q := a / 200) in *. set (r0 := a mod 200) in *.
  assert (Enum : num = 200 * (q * P) + r0 * P) by (unfold num; rewrite Ea; ring).
  assert (0 <= r0 * P) by nia.
  symmetry. apply (Z.div_unique_pos m P q (m - q * P)); [|ring].
  split.
  - destruct Hm as [->|[-> _]]; lia.
  - destruct Hm as [->|[-> Hr]]; nia.
Qed.

Lemma int_true_divide_200 (a : Z) :
  0 <= a < exact_below -> int_of_float (true_divide a 200) = a / 200.
Proof.
  intros [Ha Hlt]. unfold exact_below in Hlt. unfold true_divide.
  destruct (Z.eqb_spec a 0) as [->|Hnz]; [reflexivity|].
  cbv zeta. unfold int_of_float.
  set (e := quot_log2 a 200 - 52).
  assert (He : e < -5).
  { unfold e. pose proof (quot_log2_200_upper a 47 ltac:(lia) ltac:(lia)) as H.
    change (2 ^ 47) with (2 * 2 ^ 46) in H. lia. }
  destruct (Z.leb_spec 0 e) as [|_]; [lia|].
  rewrite (Z.max_r 0 (- e)) by lia. rewrite (Z.max_l 0 e) by lia.
  change (2 ^ 0) with 1. rewrite Z.mul_1_r.
  pose proof (Z.mod_pos_bound a 200 ltac:(lia)) as Ba.
  pose proof (Z.div_mod a 200 ltac:(lia)) as Ea.
  assert (HP : 2 ^ 6 <= 2 ^ (- e)) by (apply Z.pow_le_mono_r; lia).
  change (2 ^ 6) with 64 in HP.
  apply round_div_200; [lia|lia| |].
  - destruct (Z.eq_dec (a mod 200) 199) as [E|NE].
    + assert (He' : e < -6).
      { unfold e.
        pose proof (quot_log2_200_upper a 46 ltac:(lia) ltac:(lia)) as H. lia. }
      assert (HP' : 2 ^ 7 <= 2 ^ (- e)) by (apply Z.pow_le_mono_r; lia).
      change (2 ^ 7) with 128 in HP'. lia.
    + nia.
  - set (num := a * 2 ^ (- e)).
    pose proof (Z.mod_pos_bound num 200 ltac:(lia)) as Bn.
    destruct (_ || _) eqn:Hup; [right|left; reflexivity].
    split; [reflexivity|].
    apply orb_true_iff in Hup as [H|H].
    + apply Z.ltb_lt in H. lia.
    + apply andb_true_iff in H as [H _]. apply Z.eqb_eq in H. lia.
Qed.

Lemma int_true_divide_nonneg (a b : Z) :
  0 <= a -> 0 < b -> 0 <= int_of_float (true_divide a b).
Proof.
  intros Ha Hb. unfold true_divide.
  destruct (Z.eqb_spec a 0) as [->|Hnz]; [cbn; lia|].
  cbv zeta. unfold int_of_float.
  set (e := quot_log2 a b - 52).
  set (num := a * 2 ^ Z.max 0 (- e)). set (den := b * 2 ^ Z.max 0 e).
  assert (0 <= num)
    by (unfold num; apply Z.mul_nonneg_nonneg; [lia|apply Z.pow_nonneg; lia]).
  assert (0 < den)
    by (unfold den; apply Z.mul_pos_pos; [lia|apply Z.pow_pos_nonneg; lia]).
  assert (0 <= num / den) by (apply Z.div_pos; lia).
  destruct (_ || _); destruct (Z.leb_spec 0 e);
    solve [ apply Z.mul_nonneg_nonneg; [lia|apply Z.pow_nonneg; lia]
          | apply Z.div_pos; [lia|apply Z.pow_pos_nonneg; lia] ].
Qed.

Lemma split_many_words (n : nat) : length (split (many_words n)) = n.
Proof.
  unfold split, many_words.
  induction n as [|n IH]; [reflexivity|].
  cbn [repeat concat]. change (s2l "a ") with [ascii_of_nat 97; ascii_of_nat 32].
  cbn [app split_from]. change (isspace (ascii_of_nat 97)) with false.
  change (isspace (ascii_of_nat 32)) with true. cbn [rev app length].
  f_equal. exact IH.
Qed.

End ReadingTime.

(** C10: for every text, the empty one included, [calculate_reading_time]
    returns at least 1. *)
Theorem reading_time_at_least_one (text : str) :
  1 <= calculate_reading_time text.
Proof.
  unfold calculate_reading_time.
  pose proof (int_true_divide_nonneg (Z.of_nat (length (split text))) 200
                ltac:(lia) ltac:(lia)).
  lia.
Qed.

Example reading_time_of_empty_text : calculate_reading_time [] = 1.
Proof. reflexivity. Qed.

(** C4, as amended: for every text of fewer than [exact_below] words,
    that is 14073748835532999, [calculate_reading_time] returns the floor
    of the number of words over 200, plus 1. *)
Theorem reading_time_is_floor_plus_one (text : str) :
  Z.of_nat (length (split text)) < exact_below ->
  calculate_reading_time text = Z.of_nat (length (split text)) / 200 + 1.
Proof.
  intros Hlt. unfold calculate_reading_time.
  rewrite int_true_divide_200 by lia. reflexivity.
Qed.

Lemma reading_time_is_floor_plus_one_witness :
  Z.of_nat (length (split (s2l "one two  three"))) < exact_below
  /\ calculate_reading_time (s2l "one two  three")
     = Z.of_nat (length (split (s2l "one two  three"))) / 200 + 1.
Proof.
  split; [vm_compute; reflexivity|].
  apply (reading_time_is_floor_plus_one (s2l "one two  three")).
  vm_compute. reflexivity.
Defined.

(** C4 as stated fails: on a text of 14073748835532999 words the true
    division rounds up to the next integer, and the reading time is one
    more than the floor of the quotient plus 1. *)
Lemma reading_time_exceeds_floor :
  calculate_reading_time (many_words (Z.to_nat exact_below))
  <> Z.of_nat (length (split (many_words (Z.to_nat exact_below)))) / 200 + 1.
Proof.
  unfold calculate_reading_time.
  rewrite split_many_words.
  rewrite Z2Nat.id by (vm_compute; discriminate).
  vm_compute. discriminate.
Qed.

(** ** [get_frontmatter] *)

Section GetFrontmatter.

Lemma find_contains (p s : str) : find p s = None <-> contains p s = false.
Proof.
  induction s as [|c s IH]; cbn [find contains].
  - destruct (startswith p []); cbn; split; congruence.
  - destruct (startswith p (c :: s)); cbn; [split; congruence|].
    rewrite <- IH. destruct (find p s); cbn; split; congruence.
Qed.

Lemma lazy_until_find (d s : str) :
  lazy_until d s = option_map (fun j => take j s) (find d s).
Proof.
  induction s as [|c s IH]; cbn [lazy_until find].
  - destruct (startswith d []); reflexivity.
  - destruct (startswith d (c :: s)); [reflexivity|].
    rewrite IH. destruct (find d s); reflexivity.
Qed.

Lemma search_without_delimiter (s : str) :
  contains delim s = false -> search_frontmatter s = None.
Proof.
  induction s as [|c s IH]; intros H; cbn [contains] in H;
    apply orb_false_iff in H as [H1 H2].
  - cbn [search_frontmatter]. rewrite H1. reflexivity.
  - cbn [search_frontmatter]. rewrite H1. apply IH, H2.
Qed.

Lemma delim_chars : delim = [HYPHEN; HYPHEN; HYPHEN; LF].
Proof. reflexivity. Qed.

(** No delimiter begins inside a delimiter. *)
Lemma no_delimiter_in_tail (c : ascii) (s : str) :
  startswith delim (c :: s) = true ->
  contains delim (drop (length delim) (c :: s)) = false ->
  contains delim s = false.
Proof.
  rewrite delim_chars. intros Hd Hc.
  destruct s as [|c1 [|c2 [|c3 s]]]; cbn [startswith] in Hd;
    rewrite ?andb_false_r in Hd; try discriminate Hd.
  change (drop _ (c :: c1 :: c2 :: c3 :: s)) with s in Hc.
  repeat (apply andb_true_iff in Hd as [?%Ascii.eqb_eq Hd]). subst.
  assert (E : Ascii.eqb HYPHEN LF = false) by reflexivity.
  cbn [contains startswith]. rewrite Hc, E.
  rewrite ?andb_false_r, ?andb_false_l. reflexivity.
Qed.

Lemma search_frontmatter_find (content : str) :
  search_frontmatter content =
  match find delim content with
  | None => None
  | Some i =>
      let rest := drop (i + length delim) content in
      option_map (fun j => take j rest) (find delim rest)
  end.
Proof.
  induction content as [|c s IH].
  - reflexivity.
  - cbn [search_frontmatter find].
    destruct (startswith delim (c :: s)) eqn:Hd.
    + rewrite lazy_until_find. cbn zeta. change (0 + length delim)%nat with (length delim).
      destruct (find delim (drop (length delim) (c :: s))) eqn:Hf; [reflexivity|].
      cbn [option_map]. apply search_without_delimiter.
      apply (no_delimiter_in_tail c); [exact Hd|]. apply find_contains, Hf.
    + rewrite IH. destruct (find delim s); reflexivity.
Qed.

End GetFrontmatter.

(** C5, as amended: [get_frontmatter] returns the text between the first
    [---\n] of the document, wherever it stands, and the next [---\n]
    after it, and the empty string when the document has no two such
    delimiters. *)
Theorem get_frontmatter_between_delimiters (path content : str) (w : World) :
  files w !! path = Some content ->
  get_frontmatter path w = (w, Ok (between_delimiters content)).
Proof.
  intros Hfile. unfold get_frontmatter, bind, read_file. rewrite Hfile.
  rewrite search_frontmatter_find. unfold between_delimiters.
  destruct (find delim content) as [i|]; [|reflexivity].
  cbn zeta. destruct (find delim (drop (i + length delim) content)); reflexivity.
Qed.

Lemma get_frontmatter_between_delimiters_witness :
  let doc := text ["---"; "id: 7"; "draft: false"; "---"; "Body."] in
  files (one_file (s2l "post.mdx") doc) !! s2l "post.mdx" = Some doc
  /\ get_frontmatter (s2l "post.mdx") (one_file (s2l "post.mdx") doc)
     = (one_file (s2l "post.mdx") doc, Ok (text ["id: 7"; "draft: false"])).
Proof.
  split; [vm_compute; reflexivity|].
  apply (get_frontmatter_between_delimiters (s2l "post.mdx")
           (text ["---"; "id: 7"; "draft: false"; "---"; "Body."])).
  vm_compute. reflexivity.
Defined.

(** C5 as stated fails: a document that does not begin with a delimiter
    has no frontmatter block at its start, and still [get_frontmatter]
    returns the text between two later delimiters instead of the empty
    string. *)
Lemma get_frontmatter_after_the_start :
  let doc := text ["Intro."; "---"; "a: 1"; "---"; "Body."] in
  startswith delim doc = false
  /\ snd (get_frontmatter (s2l "post.mdx") (one_file (s2l "post.mdx") doc))
     = Ok (text ["a: 1"])
  /\ snd (get_frontmatter (s2l "post.mdx") (one_file (s2l "post.mdx") doc))
     <> Ok [].
Proof.
  cbv zeta. split; [|split]; vm_compute; [reflexivity|reflexivity|discriminate].
Qed.

(** ** Failures of the processes *)

Section Failures.

Variable env : Env.

Lemma reports_silent {A} (c : M A) :
  (forall w, trace (fst (c w)) = trace w) -> reports_failures env c.
Proof.
  intros H w. exists []. rewrite app_nil_r. split; [apply H|].
  intros i cmd code Hi. rewrite lookup_nil in Hi. discriminate.
Qed.

Lemma reports_ret {A} (a : A) : reports_failures env (ret a).
Proof. apply reports_silent. reflexivity. Qed.

Lemma reports_raise {A} (e : exn) : reports_failures env (@raise A e).
Proof. apply reports_silent. reflexivity. Qed.

Lemma reports_print (m : message) : reports_failures env (print m).
Proof. apply reports_silent. reflexivity. Qed.

Lemma reports_read_file (path : str) : reports_failures env (read_file path).
Proof.
  apply reports_silent. intros w. unfold read_file.
  destruct (files w !! path); reflexivity.
Qed.

Lemma reports_write_file (path content : str) :
  reports_failures env (write_file path content).
Proof. apply reports_silent. reflexivity. Qed.

Lemma reports_now : reports_failures env (now env).
Proof. apply reports_silent. reflexivity. Qed.

Lemma reports_fresh_uuid : reports_failures env (fresh_uuid env).
Proof. apply reports_silent. reflexivity. Qed.

Lemma reports_subprocess_run (cmd : list str) :
  reports_failures env (subprocess_run env cmd).
Proof.
  intros w. exists [cmd]. split.
  - unfold subprocess_run.
    destruct (run_outcome env (length (trace w)) cmd) as [code out| |];
      [destruct (code =? 0)| |]; reflexivity.
  - intros [|i] cmd' code Hi [out [Hrun Hcode]]; [|destruct i; discriminate Hi].
    injection Hi as <-. rewrite Nat.add_0_r in Hrun.
    unfold subprocess_run. rewrite Hrun.
    destruct (Z.eqb_spec code 0); [contradiction|reflexivity].
Qed.

Lemma reports_bind {A B} (c : M A) (k : A -> M B) :
  reports_failures env c ->
  (forall a, reports_failures env (k a)) ->
  reports_failures env (bind c k).
Proof.
  intros Hc Hk w. unfold bind.
  destruct (Hc w) as [new1 [Ht1 Hf1]].
  destruct (c w) as [w1 [a|e]] eqn:Hcw; cbn [fst snd] in *.
  - destruct (Hk a w1) as [new2 [Ht2 Hf2]].
    exists (new1 ++ new2). split.
    + rewrite Ht2, Ht1, app_assoc. reflexivity.
    + intros i cmd code Hi Hfail.
      destruct (lookup_app_Some new1 new2 i cmd) as [Hcases _].
      destruct (Hcases Hi) as [Hl|[Hge Hr]].
      * specialize (Hf1 i cmd code Hl Hfail). discriminate Hf1.
      * apply (Hf2 (i - length new1)%nat cmd code Hr).
        rewrite Ht1, length_app.
        replace (length (trace w) + length new1 + (i - length new1))%nat
          with (length (trace w) + i)%nat by lia.
        exact Hfail.
  - exists new1. split; [exact Ht1|].
    intros i cmd code Hi Hfail.
    specialize (Hf1 i cmd code Hi Hfail). injection Hf1 as ->. reflexivity.
Qed.

Lemma reports_for_each {A} (body : A -> M unit) (l : list A) :
  (forall x, reports_failures env (body x)) ->
  reports_failures env (for_each body l).
Proof.
  intros Hbody. induction l as [|x l IH]; cbn [for_each].
  - apply reports_ret.
  - apply reports_bind; [apply Hbody|intros _; exact IH].
Qed.

Create HintDb reports.

Hint Resolve reports_ret reports_raise reports_print reports_read_file
  reports_write_file reports_now reports_fresh_uuid reports_subprocess_run
  : reports.

Ltac reports_step :=
  first [ solve [auto with reports]
        | apply reports_for_each; intros ?
        | apply reports_bind; [|intros ?] ].

Lemma reports_get_frontmatter (path : str) :
  reports_failures env (get_frontmatter path).
Proof.
  unfold get_frontmatter. reports_step; [reports_step|].
  destruct (search_frontmatter _); reports_step.
Qed.

Lemma reports_update_frontmatter (path : str) (updates : list (str * pyvalue)) :
  reports_failures env (update_frontmatter path updates).
Proof.
  unfold update_frontmatter. reports_step; [reports_step|].
  destruct (search_frontmatter _); reports_step.
Qed.

Lemma reports_git_add (file : str) : reports_failures env (git_add env file).
Proof. unfold git_add. repeat reports_step. Qed.

Hint Resolve reports_get_frontmatter reports_update_frontmatter reports_git_add
  : reports.

Lemma reports_id_step (file : str) (frontmatter : gmap str str) :
  reports_failures env (id_step env file frontmatter).
Proof.
  unfold id_step. destruct (frontmatter !! s2l "id"); repeat reports_step.
Qed.

Lemma reports_draft_step (file : str) (frontmatter : gmap str str) :
  reports_failures env (draft_step env file frontmatter).
Proof.
  unfold draft_step. repeat case_bool_decide; repeat reports_step.
Qed.

Lemma reports_reading_time_step (file : str) :
  reports_failures env (reading_time_step env file).
Proof. unfold reading_time_step. repeat reports_step. Qed.

Hint Resolve reports_id_step reports_draft_step reports_reading_time_step
  : reports.

Lemma reports_process_file (file : str) :
  reports_failures env (process_file env file).
Proof. unfold process_file. repeat reports_step. Qed.

Hint Resolve reports_process_file : reports.

Lemma reports_main_body : reports_failures env (main_body env).
Proof.
  unfold main_body. repeat reports_step.
  unfold staged_files. destruct (collect_files _); reports_step.
Qed.

Lemma main_trace (w : World) :
  trace (fst (main env w)) = trace (fst (main_body env w)).
Proof.
  unfold main. destruct (main_body env w) as [w' [a|e]]; [reflexivity|].
  destruct (is_CalledProcessError e); [reflexivity|].
  destruct (is_Exception e); reflexivity.
Qed.

End Failures.

(** C7: every process of the hook that ends with a return code other than
    zero, git or the lint runner, makes [main] print the error message of
    its [CalledProcessError] as the last thing it does and return
    normally: no exception leaves [main]. *)
Theorem main_reports_process_failure
    (env : Env) (w : World) (n : nat) (cmd : list str) (code : Z) :
  (length (trace w) <= n)%nat ->
  trace (fst (main env w)) !! n = Some cmd ->
  failed_process env n cmd code ->
  snd (main env w) = None
  /\ last (printed (fst (main env w)))
     = Some (MsgError (CalledProcessError cmd code)).
Proof.
  intros Hn Hcmd Hfail. rewrite main_trace in Hcmd.
  destruct (reports_main_body env w) as [new [Ht Hf]].
  rewrite Ht in Hcmd.
  rewrite lookup_app_r in Hcmd by exact Hn.
  specialize (Hf (n - length (trace w))%nat cmd code Hcmd).
  replace (length (trace w) + (n - length (trace w)))%nat with n in Hf by lia.
  specialize (Hf Hfail).
  unfold main. destruct (main_body env w) as [w' r]. cbn [snd] in Hf. subst r.
  cbn. split; [reflexivity|]. apply last_snoc.
Qed.

Lemma main_reports_process_failure_witness :
  let w := one_file (s2l "post.mdx") [] in
  (length (trace w) <= 0)%nat
  /\ trace (fst (main no_repository_env w)) !! 0%nat = Some git_diff
  /\ failed_process no_repository_env 0 git_diff 128
  /\ snd (main no_repository_env w) = None
  /\ last (printed (fst (main no_repository_env w)))
     = Some (MsgError (CalledProcessError git_diff 128)).
Proof.
  cbv zeta.
  assert (H1 : (length (trace (one_file (s2l "post.mdx") [])) <= 0)%nat)
    by (vm_compute; lia).
  assert (H2 : trace (fst (main no_repository_env (one_file (s2l "post.mdx") [])))
               !! 0%nat = Some git_diff) by (vm_compute; reflexivity).
  assert (H3 : failed_process no_repository_env 0 git_diff 128)
    by (exists []; split; [reflexivity|discriminate]).
  split; [exact H1|]. split; [exact H2|]. split; [exact H3|].
  exact (main_reports_process_failure no_repository_env
           (one_file (s2l "post.mdx") []) 0 git_diff 128 H1 H2 H3).
Defined.

(** ** [update_frontmatter] *)

Section Substitution.

Lemma re_sub_key_cons (key repl : str) (c : ascii) (s : str) :
  re_sub_key key repl (c :: s) =
  match match_key_at key (c :: s) with
  | Some n => repl ++ re_sub_key key repl (drop (Nat.pred n) s)
  | None => c :: re_sub_key key repl s
  end.
Proof.
  simp re_sub_key. destruct (match_key_at key (c :: s)); reflexivity.
Qed.

Lemma replace_from_cons (old new : str) (c : ascii) (s : str) :
  replace_from old new (c :: s) =
  if startswith old (c :: s)
  then new ++ replace_from old new (drop (Nat.pred (length old)) s)
  else c :: replace_from old new s.
Proof.
  simp replace_from. destruct (startswith old (c :: s)); reflexivity.
Qed.

Lemma startswith_true (p s : str) :
  startswith p s = true -> s = p ++ drop (length p) s.
Proof.
  revert s. induction p as [|a p IH]; intros s H; [reflexivity|].
  destruct s as [|b s]; [discriminate H|]. cbn [startswith] in H.
  apply andb_true_iff in H as [Hab Hp]. apply Ascii.eqb_eq in Hab. subst b.
  cbn [length drop app]. f_equal. apply IH, Hp.
Qed.

Lemma startswith_app (p t : str) : startswith p (p ++ t) = true.
Proof.
  induction p as [|a p IH]; [reflexivity|].
  cbn [app startswith]. rewrite Ascii.eqb_refl. exact IH.
Qed.

Lemma match_key_at_Some (key s : str) (n : nat) :
  match_key_at key s = Some n -> startswith (key ++ [COLON]) s = true.
Proof.
  unfold match_key_at. destruct (startswith (key ++ [COLON]) s); congruence.
Qed.

Lemma match_key_at_None (key s : str) :
  startswith (key ++ [COLON]) s = false -> match_key_at key s = None.
Proof. unfold match_key_at. intros ->. reflexivity. Qed.

(** Without the text [key:] there is nothing to substitute. *)
Lemma re_sub_key_absent (key repl s : str) :
  contains (key ++ [COLON]) s = false -> re_sub_key key repl s = s.
Proof.
  induction s as [|c s IH]; intros H.
  - simp re_sub_key. reflexivity.
  - cbn [contains] in H. apply orb_false_iff in H as [H1 H2].
    rewrite re_sub_key_cons, (match_key_at_None _ _ H1), (IH H2). reflexivity.
Qed.

Lemma intersperse_with_nil (s : str) : intersperse_with [] s = s.
Proof. induction s as [|c s IH]; cbn; [|rewrite IH]; reflexivity. Qed.

Lemma replace_from_same (old : str) (n : nat) :
  old <> [] -> forall s, (length s <= n)%nat -> replace_from old old s = s.
Proof.
  intros Hold. induction n as [|n IH]; intros [|c s] Hlen;
    try (simp replace_from; reflexivity); cbn [length] in Hlen; [lia|].
  rewrite replace_from_cons. destruct (startswith old (c :: s)) eqn:Hs.
  - rewrite IH by (rewrite length_drop; lia).
    destruct old as [|a old]; [contradiction|].
    pose proof (startswith_true _ _ Hs) as E. cbn [length drop] in E.
    cbn [length Nat.pred]. symmetry. exact E.
  - rewrite IH by lia. reflexivity.
Qed.

(** Replacing a text by itself changes nothing. *)
Lemma replace_same (old s : str) : replace old old s = s.
Proof.
  destruct old as [|a old]; cbn [replace].
  - apply intersperse_with_nil.
  - apply (replace_from_same _ (length s)); [discriminate|lia].
Qed.

Lemma isword_not_colon (key : str) :
  forallb isword key = true -> ~ In COLON key.
Proof.
  intros H Hin. rewrite forallb_forall in H. specialize (H _ Hin).
  discriminate H.
Qed.

Lemma isword_isdot (key : str) :
  forallb isword key = true -> forallb isdot key = true.
Proof.
  rewrite !forallb_forall. intros H c Hc. specialize (H c Hc).
  unfold isdot. destruct (Ascii.eqb_spec c LF) as [->|]; [discriminate H|reflexivity].
Qed.

(** Up to its first colon a text is read the same way by every pattern
    that ends at its own first colon. *)
Lemma startswith_first_colon (w key t1 t2 : str) :
  ~ In COLON w ->
  startswith (key ++ [COLON]) t1 = true ->
  startswith (key ++ [COLON]) t2 = true ->
  startswith (w ++ [COLON]) t1 = startswith (w ++ [COLON]) t2.
Proof.
  revert key t1 t2. induction w as [|x w IH]; intros key t1 t2 Hw H1 H2;
    destruct key as [|k key], t1 as [|a1 t1], t2 as [|a2 t2];
    cbn [app startswith] in *; try discriminate;
    apply andb_true_iff in H1 as [E1 H1], H2 as [E2 H2];
    apply Ascii.eqb_eq in E1, E2; subst a1 a2.
  - reflexivity.
  - reflexivity.
  - destruct (Ascii.eqb_spec x COLON) as [->|]; [|reflexivity].
    exfalso. apply Hw. left. reflexivity.
  - f_equal. apply (IH key); [|assumption|assumption].
    intros Hin. apply Hw. right. exact Hin.
Qed.

(** The substitution keeps every match up to its colon, and so what a
    text begins with up to a first colon. *)
Lemma startswith_re_sub_key (key tail w s : str) :
  ~ In COLON w ->
  startswith (w ++ [COLON]) (re_sub_key key (key ++ COLON :: tail) s)
  = startswith (w ++ [COLON]) s.
Proof.
  revert w. induction s as [|c s IH]; intros w Hw.
  - simp re_sub_key. reflexivity.
  - rewrite re_sub_key_cons. destruct (match_key_at key (c :: s)) as [n|] eqn:Hm.
    + apply (startswith_first_colon w key); [exact Hw| |].
      * replace ((key ++ COLON :: tail) ++ re_sub_key key (key ++ COLON :: tail) (drop (Nat.pred n) s))
          with ((key ++ [COLON]) ++ tail ++ re_sub_key key (key ++ COLON :: tail) (drop (Nat.pred n) s))
          by (rewrite <- !app_assoc; reflexivity).
        apply startswith_app.
      * apply (match_key_at_Some _ _ _ Hm).
    + destruct w as [|x w]; cbn [app startswith]; [reflexivity|].
      f_equal. apply IH. intros Hin. apply Hw. right. exact Hin.
Qed.

Lemma starts_after_newline_app (p a s : str) :
  forallb isdot a = true ->
  starts_after_newline p (a ++ s) = starts_after_newline p s.
Proof.
  induction a as [|c a IH]; intros H; [reflexivity|].
  cbn [forallb] in H. apply andb_true_iff in H as [Hc Ha].
  cbn [app starts_after_newline]. unfold isdot in Hc.
  apply negb_true_iff in Hc. rewrite Hc. cbn [andb orb]. apply IH, Ha.
Qed.

Lemma starts_after_newline_drop (p : str) (k : nat) (s : str) :
  starts_after_newline p (drop k s) = true -> starts_after_newline p s = true.
Proof.
  revert k. induction s as [|c s IH]; intros [|k] H; try exact H.
  cbn [drop] in H. cbn [starts_after_newline]. rewrite (IH k H).
  apply orb_true_r.
Qed.

Lemma starts_after_newline_re_sub_key (key tail w : str) (n : nat) :
  ~ In COLON w ->
  forallb isdot (key ++ COLON :: tail) = true ->
  forall s, (length s <= n)%nat ->
  starts_after_newline (w ++ [COLON]) (re_sub_key key (key ++ COLON :: tail) s) = true ->
  starts_after_newline (w ++ [COLON]) s = true.
Proof.
  intros Hw Hrepl. induction n as [|n IH]; intros [|c s] Hlen;
    try (simp re_sub_key; intros H; exact H); cbn [length] in Hlen; [lia|].
  rewrite re_sub_key_cons. destruct (match_key_at key (c :: s)) as [m|] eqn:Hm.
  - rewrite starts_after_newline_app by exact Hrepl. intros H.
    apply IH in H; [|rewrite length_drop; lia].
    cbn [starts_after_newline].
    rewrite (starts_after_newline_drop _ _ _ H). apply orb_true_r.
  - cbn [starts_after_newline]. rewrite startswith_re_sub_key by exact Hw.
    intros H. apply orb_true_iff in H as [H|H].
    + rewrite H. reflexivity.
    + rewrite (IH s ltac:(lia) H). apply orb_true_r.
Qed.

(** One substitution gives no line a key that no line had. *)
Lemma has_key_line_re_sub_key (key k : str) (value : pyvalue) (s : str) :
  plain_update (key, value) -> one_line value -> ~ In COLON k ->
  has_key_line k (re_sub_key key (key ++ s2l ": " ++ format value) s) = true ->
  has_key_line k s = true.
Proof.
  intros [Hkey _] Hval Hk. unfold has_key_line, starts_a_line.
  change (key ++ s2l ": " ++ format value)
    with (key ++ COLON :: ascii_of_nat 32 :: format value).
  rewrite startswith_re_sub_key by exact Hk.
  intros H. apply orb_true_iff in H as [H|H]; [rewrite H; reflexivity|].
  apply (starts_after_newline_re_sub_key _ _ _ (length s)) in H;
    [rewrite H; apply orb_true_r|exact Hk| |lia].
  rewrite forallb_app. cbn [fst] in Hkey. rewrite (isword_isdot _ Hkey).
  cbn [forallb andb]. exact Hval.
Qed.

Lemma has_key_line_apply_updates (updates : list (str * pyvalue)) (k s : str) :
  Forall plain_update updates ->
  Forall (fun u => one_line (snd u)) updates ->
  ~ In COLON k ->
  has_key_line k (apply_updates updates s) = true ->
  has_key_line k s = true.
Proof.
  intros Hplain Hline Hk. revert s.
  induction updates as [|[key value] updates IH]; intros s H; [exact H|].
  apply Forall_cons in Hplain as [Hp Hplain].
  apply Forall_cons in Hline as [Hl Hline].
  unfold apply_updates in H. cbn [fold_left] in H.
  apply (IH Hplain Hline) in H.
  apply (has_key_line_re_sub_key key k value s Hp Hl Hk H).
Qed.

Lemma apply_updates_absent (updates : list (str * pyvalue)) (s : str) :
  (forall key, In key (map fst updates) -> contains (key ++ [COLON]) s = false) ->
  apply_updates updates s = s.
Proof.
  induction updates as [|[key value] updates IH]; intros H; [reflexivity|].
  unfold apply_updates. cbn [fold_left].
  rewrite re_sub_key_absent by (apply H; left; reflexivity).
  apply IH. intros k Hk. apply H. right. exact Hk.
Qed.

End Substitution.

(** C8, as amended: [update_frontmatter] adds no line for a key.  For
    updates of the kind the hook makes (keys of word characters, values
    without backslash), what it writes is the file with the frontmatter
    block rewritten by substitution, and
    - when the values stay on one line, no key of the updates that began
      no line of the block begins a line of the rewritten block;
    - when the block holds the text [key:] nowhere, for any key of the
      updates, the file and the rest of the world are left as they were.
    A key that begins no line but stands inside another one, as [id]
    does in [uuid: 5], has that line rewritten. *)
Theorem update_frontmatter_never_inserts
    (path content frontmatter : str) (updates : list (str * pyvalue)) (w : World) :
  files w !! path = Some content ->
  search_frontmatter content = Some frontmatter ->
  Forall plain_update updates ->
  update_frontmatter path updates w
  = write_file path (replace frontmatter (apply_updates updates frontmatter) content) w
  /\ (Forall (fun u => one_line (snd u)) updates ->
      forall key, In key (map fst updates) ->
        has_key_line key frontmatter = false ->
        has_key_line key (apply_updates updates frontmatter) = false)
  /\ ((forall key, In key (map fst updates) ->
         contains (key ++ [COLON]) frontmatter = false) ->
      update_frontmatter path updates w = (w, Ok tt)).
Proof.
  intros Hfile Hfm Hplain.
  assert (Hrun : update_frontmatter path updates w
                 = write_file path
                     (replace frontmatter (apply_updates updates frontmatter) content) w).
  { unfold update_frontmatter, bind, read_file. rewrite Hfile, Hfm. reflexivity. }
  split; [exact Hrun|]. split.
  - intros Hline key Hkey Hno.
    destruct (has_key_line key (apply_updates updates frontmatter)) eqn:E;
      [|reflexivity].
    rewrite <- Hno. symmetry.
    apply (has_key_line_apply_updates updates key frontmatter Hplain Hline);
      [|exact E].
    apply isword_not_colon.
    apply in_map_iff in Hkey as [[k v] [<- Hin]].
    rewrite Forall_forall in Hplain. apply (Hplain (k, v)).
    apply list_elem_of_In. exact Hin.
  - intros Habsent. rewrite Hrun, (apply_updates_absent _ _ Habsent), replace_same.
    unfold write_file. rewrite (insert_id _ _ _ Hfile). destruct w; reflexivity.
Qed.

Lemma update_frontmatter_never_inserts_witness :
  let doc := text ["---"; "title: Hello"; "uuid: 5"; "---"; "Body."] in
  let block := text ["title: Hello"; "uuid: 5"] in
  let updates := [(s2l "id", PyStr (s2l "abc"))] in
  let w := one_file (s2l "post.mdx") doc in
  files w !! s2l "post.mdx" = Some doc
  /\ search_frontmatter doc = Some block
  /\ Forall plain_update updates
  /\ update_frontmatter (s2l "post.mdx") updates w
     = write_file (s2l "post.mdx") (replace block (apply_updates updates block) doc) w
  /\ (Forall (fun u => one_line (snd u)) updates ->
      forall key, In key (map fst updates) ->
        has_key_line key block = false ->
        has_key_line key (apply_updates updates block) = false)
  /\ ((forall key, In key (map fst updates) ->
         contains (key ++ [COLON]) block = false) ->
      update_frontmatter (s2l "post.mdx") updates w = (w, Ok tt)).
Proof.
  cbv zeta.
  assert (H1 : files (one_file (s2l "post.mdx")
                        (text ["---"; "title: Hello"; "uuid: 5"; "---"; "Body."]))
               !! s2l "post.mdx"
               = Some (text ["---"; "title: Hello"; "uuid: 5"; "---"; "Body."]))
    by (vm_compute; reflexivity).
  assert (H2 : search_frontmatter
                 (text ["---"; "title: Hello"; "uuid: 5"; "---"; "Body."])
               = Some (text ["title: Hello"; "uuid: 5"]))
    by (vm_compute; reflexivity).
  assert (H3 : Forall plain_update [(s2l "id", PyStr (s2l "abc"))])
    by (constructor; [split; reflexivity|constructor]).
  split; [exact H1|]. split; [exact H2|]. split; [exact H3|].
  exact (update_frontmatter_never_inserts _ _ _ _ _ H1 H2 H3).
Defined.

(** C8 as stated fails.  The key [id] begins no line of a block that
    has a [uuid: 5] line, and still the update of [id] rewrites the file:
    the substitution takes the [id:] inside [uuid:].  And with a value of
    two lines the update of one key gives a line to another key of the
    same updates that had none. *)
Lemma update_frontmatter_rewrites_without_key_line :
  let doc := text ["---"; "title: Hello"; "uuid: 5"; "---"; "Body."] in
  let block := text ["title: Hello"; "uuid: 5"] in
  let w := one_file (s2l "post.mdx") doc in
  let after := fst (update_frontmatter (s2l "post.mdx")
                      [(s2l "id", PyStr (s2l "abc"))] w) in
  let two_lines := [(s2l "a", PyStr (s2l "x" ++ LF :: s2l "b: 1"));
                    (s2l "b", PyStr (s2l "2"))] in
  search_frontmatter doc = Some block
  /\ has_key_line (s2l "id") block = false
  /\ files after !! s2l "post.mdx"
     = Some (text ["---"; "title: Hello"; "uuid: abc"; "---"; "Body."])
  /\ files after !! s2l "post.mdx" <> files w !! s2l "post.mdx"
  /\ has_key_line (s2l "b") (text ["a: 0"]) = false
  /\ apply_updates two_lines (text ["a: 0"]) = text ["a: x"; "b: 2"]
  /\ has_key_line (s2l "b") (apply_updates two_lines (text ["a: 0"])) = true.
Proof.
  cbv zeta. repeat split; vm_compute; solve [reflexivity | discriminate].
Qed.

(** The key [id] has no line in a block that only has a [uuid] line; the
    substitution rewrites that line, and gives [id] no line. *)
Example update_frontmatter_inside_a_line :
  apply_updates [(s2l "id", PyStr (s2l "abc"))] (text ["title: Hello"; "uuid: 5"])
  = text ["title: Hello"; "uuid: abc"].
Proof. vm_compute. reflexivity. Qed.

(** ** The loop body *)

Section LoopBody.

Variable env : Env.

Lemma process_file_steps (file : str) (w : World) :
  process_file env file w
  = bind (before_reading_time env file) (fun _ => reading_time_step env file) w.
Proof.
  unfold process_file, before_reading_time, bind.
  destruct (print (MsgChecking file) w) as [w0 [[]|e]]; [|reflexivity].
  destruct (get_frontmatter file w0) as [w1 [s|e]]; [|reflexivity].
  destruct (id_step env file (parse_frontmatter s) w1) as [w2 [[]|e]];
    [|reflexivity].
  destruct (draft_step env file (parse_frontmatter s) w2) as [w3 [[]|e]];
    reflexivity.
Qed.

Lemma git_add_world (file : str) (w : World) :
  files (fst (git_add env file w)) = files w
  /\ trace (fst (git_add env file w)) = trace w ++ [[s2l "git"; s2l "add"; file]].
Proof.
  unfold git_add, bind, subprocess_run.
  destruct (run_outcome env _ _) as [code out| |];
    [destruct (code =? 0)| |]; split; reflexivity.
Qed.

(** A draft state other than [false] leaves the clock unread: the step
    is the same under any other clock. *)
Lemma draft_step_without_clock (env' : Env) (file : str)
    (frontmatter : gmap str str) (w : World) :
  run_outcome env' = run_outcome env ->
  frontmatter !! s2l "draft" <> Some (s2l "false") ->
  draft_step env' file frontmatter w = draft_step env file frontmatter w.
Proof.
  intros Hrun Hdraft. unfold draft_step.
  rewrite (bool_decide_eq_false_2 _ Hdraft).
  case_bool_decide; [|reflexivity].
  unfold git_add, bind, subprocess_run. rewrite Hrun. reflexivity.
Qed.

End LoopBody.

(** C9: whatever the draft state, once the steps before it are through,
    the hook computes the reading time from the entire content that the
    file has then, frontmatter block included, substitutes it for the
    value of [readingTime] in the block, and stages the file. *)
Theorem reading_time_over_whole_file
    (env : Env) (file content : str) (w w1 : World) :
  before_reading_time env file w = (w1, Ok tt) ->
  files w1 !! file = Some content ->
  let reading_time := calculate_reading_time content in
  process_file env file w
  = (update_frontmatter file [(s2l "readingTime", PyInt reading_time)] >>
     git_add env file) w1
  /\ files (fst (process_file env file w)) !! file
     = Some match search_frontmatter content with
            | Some frontmatter =>
                replace frontmatter
                  (re_sub_key (s2l "readingTime")
                     (s2l "readingTime: " ++ str_of_int reading_time) frontmatter)
                  content
            | None => content
            end
  /\ last (trace (fst (process_file env file w)))
     = Some [s2l "git"; s2l "add"; file].
Proof.
  intros Hbefore Hfile reading_time.
  assert (Hrun : process_file env file w
                 = (update_frontmatter file [(s2l "readingTime", PyInt reading_time)] >>
                    git_add env file) w1).
  { rewrite process_file_steps. unfold bind at 1. rewrite Hbefore.
    unfold reading_time_step, bind, read_file. rewrite Hfile. reflexivity. }
  split; [exact Hrun|]. rewrite Hrun. unfold bind.
  unfold update_frontmatter, bind, read_file. rewrite Hfile.
  destruct (search_frontmatter content) as [frontmatter|].
  - unfold write_file at 1 2.
    match goal with |- context [git_add env file ?w2] =>
      destruct (git_add_world env file w2) as [Hf Ht] end.
    rewrite Hf, Ht. cbn [files]. split; [apply lookup_insert_eq|apply last_snoc].
  - unfold ret at 1 2.
    destruct (git_add_world env file w1) as [Hf Ht].
    rewrite Hf, Ht. split; [exact Hfile|apply last_snoc].
Qed.

Lemma reading_time_over_whole_file_witness :
  let env := quiet_env (status_line "M" "post.mdx") in
  let w := one_file (s2l "post.mdx") post_counted in
  before_reading_time env (s2l "post.mdx") w
  = ({| files := files w; printed := [MsgChecking (s2l "post.mdx")]; trace := [] |}, Ok tt)
  /\ files w !! s2l "post.mdx" = Some post_counted
  /\ calculate_reading_time post_counted = 2
  /\ calculate_reading_time (many_words 195) = 1
  /\ files (fst (process_file env (s2l "post.mdx") w)) !! s2l "post.mdx"
     = Some (text ["---"; "id: 7"; "draft: true"; "readingTime: 2"; "---"]
             ++ many_words 195).
Proof.
  cbv zeta.
  assert (H1 : before_reading_time (quiet_env (status_line "M" "post.mdx"))
                 (s2l "post.mdx") (one_file (s2l "post.mdx") post_counted)
               = ({| files := files (one_file (s2l "post.mdx") post_counted);
                     printed := [MsgChecking (s2l "post.mdx")];
                     trace := [] |}, Ok tt))
    by (vm_compute; reflexivity).
  assert (H2 : files {| files := files (one_file (s2l "post.mdx") post_counted);
                        printed := [MsgChecking (s2l "post.mdx")];
                        trace := [] |} !! s2l "post.mdx" = Some post_counted)
    by (vm_compute; reflexivity).
  split; [exact H1|]. split; [exact H2|].
  split; [vm_compute; reflexivity|]. split; [vm_compute; reflexivity|].
  destruct (reading_time_over_whole_file _ _ _ _ _ H1 H2) as [_ [Hfiles _]].
  rewrite Hfiles. vm_compute. reflexivity.
Defined.

(** ** The staged files *)

Section StagedFiles.

Lemma islinebreak_isspace (c : ascii) : islinebreak c = true -> isspace c = true.
Proof.
  destruct c as [[] [] [] [] [] [] [] []]; intros H;
    solve [reflexivity | discriminate H].
Qed.

Lemma split_from_word (p cur rest : str) :
  forallb (fun c => negb (isspace c)) p = true ->
  split_from cur (p ++ rest) = split_from (rev p ++ cur) rest.
Proof.
  revert cur. induction p as [|c p IH]; intros cur H; [reflexivity|].
  cbn [forallb] in H. apply andb_true_iff in H as [Hc Hp].
  apply negb_true_iff in Hc. cbn [app split_from]. rewrite Hc.
  rewrite (IH (c :: cur) Hp). cbn [rev]. rewrite <- app_assoc. reflexivity.
Qed.

Lemma split_entry_line (status path : str) :
  field status -> field path -> split (entry_line (status, path)) = [status; path].
Proof.
  intros [Hs1 Hs2] [Hp1 Hp2]. unfold split, entry_line. cbn [fst snd].
  rewrite (split_from_word status [] _ Hs2), app_nil_r.
  cbn [split_from]. change (isspace TAB) with true.
  destruct (rev status) as [|c r] eqn:Hrev.
  { exfalso. apply Hs1. rewrite <- (rev_involutive status), Hrev. reflexivity. }
  rewrite <- Hrev, rev_involutive. f_equal.
  rewrite <- (app_nil_r path) at 1.
  rewrite (split_from_word path [] [] Hp2), app_nil_r. cbn [split_from].
  destruct (rev path) as [|d q] eqn:Hrevp.
  { exfalso. apply Hp1. rewrite <- (rev_involutive path), Hrevp. reflexivity. }
  rewrite <- Hrevp, rev_involutive. reflexivity.
Qed.

Lemma startswith_before (p a : str) (c : ascii) (rest : str) :
  ~ In c p -> p <> [] -> startswith p (a ++ c :: rest) = startswith p a.
Proof.
  revert a. induction p as [|x p IH]; intros a Hc Hp; [contradiction|].
  destruct a as [|b a]; cbn [app startswith].
  - destruct (Ascii.eqb_spec x c) as [->|]; [|reflexivity].
    exfalso. apply Hc. left. reflexivity.
  - destruct p as [|y p]; [reflexivity|].
    f_equal. apply IH; [|discriminate].
    intros Hin. apply Hc. right. exact Hin.
Qed.

Lemma selected_entry_line (status path : str) :
  field status -> selected (entry_line (status, path)) = modified_mdx (status, path).
Proof.
  intros [Hs _]. unfold selected, modified_mdx, entry_line. cbn [fst snd]. f_equal.
  - destruct status as [|c status]; [contradiction|]. reflexivity.
  - unfold endswith. rewrite rev_app_distr. cbn [rev]. rewrite <- app_assoc.
    cbn [app]. apply startswith_before; [|discriminate].
    vm_compute. intros [H|[H|[H|[H|[]]]]]; discriminate H.
Qed.

Lemma splitlines_from_line (l cur rest : str) :
  forallb (fun c => negb (isspace c) || Ascii.eqb c TAB) l = true ->
  splitlines_from cur (l ++ LF :: rest) = (rev cur ++ l) :: splitlines_from [] rest.
Proof.
  revert cur. induction l as [|c l IH]; intros cur H.
  - cbn [app splitlines_from]. change (islinebreak LF) with true.
    rewrite app_nil_r. destruct rest as [|d rest]; [reflexivity|].
    change (Ascii.eqb LF CR) with false. reflexivity.
  - cbn [forallb] in H. apply andb_true_iff in H as [Hc Hl].
    cbn [app splitlines_from].
    assert (Hbreak : islinebreak c = false).
    { destruct (islinebreak c) eqn:E; [|reflexivity].
      pose proof (islinebreak_isspace _ E) as Hsp. rewrite Hsp in Hc.
      cbn [negb orb] in Hc. apply Ascii.eqb_eq in Hc. subst c. discriminate E. }
    rewrite Hbreak, (IH (c :: cur) Hl). cbn [rev].
    rewrite <- app_assoc. reflexivity.
Qed.

Lemma entry_line_chars (status path : str) :
  field status -> field path ->
  forallb (fun c => negb (isspace c) || Ascii.eqb c TAB) (entry_line (status, path)) = true.
Proof.
  intros [_ Hs] [_ Hp]. unfold entry_line. cbn [fst snd].
  rewrite forallb_app. cbn [forallb]. rewrite Ascii.eqb_refl, orb_true_r.
  assert (Hweak : forall s, forallb (fun c => negb (isspace c)) s = true ->
                    forallb (fun c => negb (isspace c) || Ascii.eqb c TAB) s = true).
  { intros s. rewrite !forallb_forall. intros H c Hc. rewrite (H c Hc). reflexivity. }
  rewrite (Hweak _ Hs), (Hweak _ Hp). reflexivity.
Qed.

Lemma splitlines_name_status (entries : list (str * str)) :
  Forall (fun entry => field (fst entry) /\ field (snd entry)) entries ->
  splitlines (name_status entries) = map entry_line entries.
Proof.
  unfold splitlines, name_status.
  induction 1 as [|[status path] entries [Hs Hp] _ IH]; [reflexivity|].
  cbn [map concat]. rewrite <- app_assoc. cbn [app].
  rewrite splitlines_from_line by (apply entry_line_chars; assumption).
  cbn [rev app]. f_equal. exact IH.
Qed.

(** X15: on the output of git for paths without whitespace the hook
    collects the modified documents with the extension, and only them,
    in the order of the output. *)
Lemma collect_files_exact (entries : list (str * str)) :
  Forall (fun entry => field (fst entry) /\ field (snd entry)) entries ->
  collect_files (splitlines (name_status entries))
  = Ok (map snd (filter (fun entry => modified_mdx entry = true) entries)).
Proof.
  intros H. rewrite (splitlines_name_status _ H).
  induction H as [|[status path] entries [Hs Hp] _ IH]; [reflexivity|].
  cbn [fst snd] in Hs, Hp. cbn [map collect_files]. rewrite (selected_entry_line _ _ Hs).
  rewrite filter_cons. unfold second_field.
  rewrite (split_entry_line _ _ Hs Hp), IH.
  destruct (modified_mdx (status, path)) eqn:E.
  - rewrite decide_True by reflexivity. reflexivity.
  - rewrite decide_False by discriminate. reflexivity.
Qed.

End StagedFiles.

(** ** Runs of the hook *)

(** C1 does not hold of the code: on a staged, modified document whose
    frontmatter has no [id] key the hook announces the new id and stages
    the file, but the substitution finds no [id:] to rewrite and the file
    is left without an identifier. *)
Theorem missing_id_is_not_added :
  let env := quiet_env (status_line "M" "post.mdx") in
  let run := main env (one_file (s2l "post.mdx") post_without_id) in
  frontmatter_value "id" post_without_id = None
  /\ printed (fst run) = [MsgChecking (s2l "post.mdx"); MsgAddingId (s2l "post.mdx")]
  /\ trace (fst run)
     = [git_diff; [s2l "git"; s2l "add"; s2l "post.mdx"];
        [s2l "git"; s2l "add"; s2l "post.mdx"]; git_update_index; lint_staged]
  /\ files (fst run) !! s2l "post.mdx" = Some post_without_id
  /\ snd run = None.
Proof. cbv zeta. repeat split; vm_compute; reflexivity. Qed.

(** C2 does not hold of the code: on a document with [draft: first]
    whose empty [modDatetime:] line stands right before the draft line,
    the whitespace of the second substitution runs over the line end and
    takes the draft line with it; the document ends without any [draft]
    key instead of [draft: false]. *)
Theorem first_release_loses_draft :
  let env := quiet_env (status_line "M" "post.mdx") in
  let run := main env (one_file (s2l "post.mdx") post_first_release) in
  frontmatter_value "draft" post_first_release = Some (s2l "first")
  /\ printed (fst run) = [MsgChecking (s2l "post.mdx"); MsgFirstRelease (s2l "post.mdx")]
  /\ files (fst run) !! s2l "post.mdx"
     = Some (text ["---"; "id: 7"; "modDatetime: "; "---"; "Body."])
  /\ frontmatter_value "draft" (text ["---"; "id: 7"; "modDatetime: "; "---"; "Body."])
     = None
  /\ snd run = None.
Proof. cbv zeta. repeat split; vm_compute; reflexivity. Qed.

(** C3 does not hold of the code.  On a document with [draft: false] and
    no [modDatetime] line the hook announces the update of the timestamp,
    but the substitution finds no [modDatetime:] to rewrite and the
    document stays without the field.  On a document that has the field
    right after an empty [readingTime:] line, the timestamp is written
    and then lost: the whitespace of the reading-time substitution runs
    over the line end and takes the [modDatetime] line with it. *)
Theorem published_without_timestamp :
  let env := quiet_env (status_line "M" "post.mdx") in
  let run := main env (one_file (s2l "post.mdx") post_published) in
  let run' := main env (one_file (s2l "post.mdx") post_published_stamped) in
  frontmatter_value "draft" post_published = Some (s2l "false")
  /\ printed (fst run) = [MsgChecking (s2l "post.mdx"); MsgModUpdated (s2l "post.mdx")]
  /\ files (fst run) !! s2l "post.mdx" = Some post_published
  /\ frontmatter_value "modDatetime" post_published = None
  /\ snd run = None
  /\ frontmatter_value "draft" post_published_stamped = Some (s2l "false")
  /\ frontmatter_value "modDatetime" post_published_stamped
     = Some (s2l "2020-01-01T00:00:00Z")
  /\ files (fst run') !! s2l "post.mdx"
     = Some (text ["---"; "id: 7"; "draft: false"; "readingTime: 1"; "---"; "Body."])
  /\ snd run' = None.
Proof. cbv zeta. repeat split; vm_compute; reflexivity. Qed.

(** C6 does not hold of the code: for the staged, modified document
    [my post.mdx] the hook takes the second whitespace-separated field of
    the status line, the path [my], fails to open it and stops; the
    document itself is never processed. *)
Theorem path_with_space_is_cut :
  let env := quiet_env (status_line "M" "my post.mdx") in
  let run := main env (one_file (s2l "my post.mdx") post_published) in
  selected (s2l "M" ++ TAB :: s2l "my post.mdx") = true
  /\ collect_files (splitlines (status_line "M" "my post.mdx")) = Ok [s2l "my"]
  /\ printed (fst run)
     = [MsgChecking (s2l "my"); MsgUnexpected (FileNotFoundError (s2l "my"))]
  /\ trace (fst run) = [git_diff]
  /\ files (fst run) !! s2l "my post.mdx" = Some post_published.
Proof. cbv zeta. repeat split; vm_compute; reflexivity. Qed.

(** The same status line without the space selects the document. *)
Example path_without_space :
  collect_files
    (splitlines (status_line "M" "my-post.mdx" ++ status_line "A" "new.mdx"
                 ++ status_line "M" "notes.txt"))
  = Ok [s2l "my-post.mdx"].
Proof. vm_compute. reflexivity. Qed.

(** A regular document: the timestamp and the reading time are
    rewritten in place. *)
Example first_release_regular :
  content_after (quiet_env (status_line "M" "post.mdx"))
    (one_file (s2l "post.mdx")
       (text ["---"; "id: 7"; "draft: first"; "modDatetime: 2020-01-01";
              "readingTime: 0"; "---"; "Body."]))
    (s2l "post.mdx")
  = Some (text ["---"; "id: 7"; "draft: false"; "modDatetime: ";
                "readingTime: 1"; "---"; "Body."]).
Proof. vm_compute. reflexivity. Qed.

(** ** The processes of a run *)

Section Processes.

Variable env : Env.

Lemma stops_silent {A} (c : M A) :
  (forall w, trace (fst (c w)) = trace w) ->
  (forall w, snd (c w) <> Raise KeyboardInterrupt) ->
  stops_at_failure env c.
Proof.
  intros Ht Hr w. exists []. rewrite app_nil_r. split; [apply Ht|].
  split; [|split].
  - intros i cmd Hi. rewrite lookup_nil in Hi. discriminate.
  - intros i cmd e Hi. rewrite lookup_nil in Hi. discriminate.
  - intros H. destruct (Hr w H).
Qed.

Lemma stops_ret {A} (a : A) : stops_at_failure env (ret a).
Proof. apply stops_silent; intros w; [reflexivity|discriminate]. Qed.

Lemma stops_raise {A} (e : exn) :
  e <> KeyboardInterrupt -> stops_at_failure env (@raise A e).
Proof.
  intros He. apply stops_silent; intros w; [reflexivity|].
  cbn. intros H. injection H as ->. contradiction.
Qed.

Lemma stops_print (m : message) : stops_at_failure env (print m).
Proof. apply stops_silent; intros w; [reflexivity|discriminate]. Qed.

Lemma stops_read_file (path : str) : stops_at_failure env (read_file path).
Proof.
  apply stops_silent; intros w; unfold read_file;
    destruct (files w !! path); cbn; [reflexivity|reflexivity|discriminate|discriminate].
Qed.

Lemma stops_write_file (path content : str) :
  stops_at_failure env (write_file path content).
Proof. apply stops_silent; intros w; [reflexivity|discriminate]. Qed.

Lemma stops_now : stops_at_failure env (now env).
Proof. apply stops_silent; intros w; [reflexivity|discriminate]. Qed.

Lemma stops_fresh_uuid : stops_at_failure env (fresh_uuid env).
Proof. apply stops_silent; intros w; [reflexivity|discriminate]. Qed.

Lemma subprocess_run_result (cmd : list str) (w : World) :
  trace (fst (subprocess_run env cmd w)) = trace w ++ [cmd]
  /\ match raised_by cmd (run_outcome env (length (trace w)) cmd) with
     | Some e => snd (subprocess_run env cmd w) = Raise e
     | None => exists out, snd (subprocess_run env cmd w) = Ok out
     end.
Proof.
  unfold subprocess_run, raised_by.
  destruct (run_outcome env (length (trace w)) cmd) as [code out| |];
    [destruct (code =? 0)| |]; cbn; eauto.
Qed.

Lemma stops_subprocess_run (cmd : list str) :
  stops_at_failure env (subprocess_run env cmd).
Proof.
  intros w. destruct (subprocess_run_result cmd w) as [Ht Hr].
  exists [cmd]. split; [exact Ht|]. split; [|split].
  - intros [|i] cmd' Hi Hcase; [|destruct i; discriminate Hi].
    injection Hi as <-. rewrite Nat.add_0_r.
    destruct (raised_by cmd _) as [e|]; [|reflexivity].
    destruct Hcase as [Hlt|[a Ha]]; [cbn in Hlt; lia|congruence].
  - intros [|i] cmd' e Hi He; [|destruct i; discriminate Hi].
    injection Hi as <-. rewrite Nat.add_0_r in He. rewrite He in Hr. exact Hr.
  - intros Hki. exists cmd. split; [reflexivity|]. cbn [length Nat.pred].
    rewrite Nat.add_0_r. unfold raised_by in Hr.
    destruct (run_outcome env (length (trace w)) cmd) as [code out| |];
      [destruct (code =? 0); [destruct Hr as [o Ho]|]| |]; congruence.
Qed.

Lemma stops_bind {A B} (c : M A) (k : A -> M B) :
  stops_at_failure env c ->
  (forall a, stops_at_failure env (k a)) ->
  stops_at_failure env (bind c k).
Proof.
  intros Hc Hk w. unfold bind.
  destruct (Hc w) as [new1 [Ht1 [Hs1 [Hf1 Hi1]]]].
  destruct (c w) as [w1 [a|e]] eqn:Hcw; cbn [fst snd] in *.
  - destruct (Hk a w1) as [new2 [Ht2 [Hs2 [Hf2 Hi2]]]].
    assert (Hlen : length (trace w1) = (length (trace w) + length new1)%nat)
      by (rewrite Ht1, length_app; reflexivity).
    exists (new1 ++ new2). split; [rewrite Ht2, Ht1, app_assoc; reflexivity|].
    split; [|split].
    + intros i cmd Hi Hcase.
      destruct (proj1 (lookup_app_Some new1 new2 i cmd) Hi) as [Hl|[Hge Hr]].
      * apply (Hs1 i cmd Hl). right. exists a. reflexivity.
      * specialize (Hs2 (i - length new1)%nat cmd Hr).
        rewrite Hlen in Hs2.
        replace (length (trace w) + length new1 + (i - length new1))%nat
          with (length (trace w) + i)%nat in Hs2 by lia.
        apply Hs2. destruct Hcase as [Hlt|Hok]; [left|right; exact Hok].
        rewrite length_app in Hlt. lia.
    + intros i cmd e Hi He.
      destruct (proj1 (lookup_app_Some new1 new2 i cmd) Hi) as [Hl|[Hge Hr]].
      * specialize (Hf1 i cmd e Hl He). discriminate Hf1.
      * apply (Hf2 (i - length new1)%nat cmd e Hr). rewrite Hlen.
        replace (length (trace w) + length new1 + (i - length new1))%nat
          with (length (trace w) + i)%nat by lia.
        exact He.
    + intros Hki. destruct (Hi2 Hki) as [cmd [Hlast Hint]].
      exists cmd. split.
      * destruct new2 as [|x new2]; [discriminate Hlast|].
        rewrite last_app, Hlast. reflexivity.
      * destruct new2 as [|x new2]; [discriminate Hlast|].
        rewrite Hlen in Hint. rewrite length_app. cbn [length] in *.
        replace (length (trace w) + Nat.pred (length new1 + S (length new2)))%nat
          with (length (trace w) + length new1 + Nat.pred (S (length new2)))%nat
          by lia.
        exact Hint.
  - exists new1. split; [exact Ht1|]. split; [|split].
    + intros i cmd Hi Hcase. apply (Hs1 i cmd Hi).
      destruct Hcase as [Hlt|[b Hb]]; [left; exact Hlt|discriminate Hb].
    + intros i cmd e' Hi He. specialize (Hf1 i cmd e' Hi He).
      injection Hf1 as ->. reflexivity.
    + intros Hki. apply Hi1. injection Hki as ->. reflexivity.
Qed.

Lemma stops_for_each {A} (body : A -> M unit) (l : list A) :
  (forall x, stops_at_failure env (body x)) ->
  stops_at_failure env (for_each body l).
Proof.
  intros Hbody. induction l as [|x l IH]; cbn [for_each].
  - apply stops_ret.
  - apply stops_bind; [apply Hbody|intros _; exact IH].
Qed.

Lemma collect_files_raises (lines : list str) (e : exn) :
  collect_files lines = Raise e -> e = IndexError.
Proof.
  induction lines as [|line lines IH]; cbn [collect_files]; [discriminate|].
  destruct (selected line); [|exact IH].
  unfold second_field. destruct (split line) as [|x [|y l]];
    try (intros H; injection H as <-; reflexivity).
  destruct (collect_files lines) as [l'|e']; [discriminate|].
  intros H. injection H as <-. apply IH. reflexivity.
Qed.

Create HintDb stops.

Hint Resolve stops_ret stops_print stops_read_file stops_write_file stops_now
  stops_fresh_uuid stops_subprocess_run : stops.

Ltac stops_step :=
  first [ solve [auto with stops]
        | apply stops_for_each; intros ?
        | apply stops_bind; [|intros ?] ].

Lemma stops_get_frontmatter (path : str) :
  stops_at_failure env (get_frontmatter path).
Proof.
  unfold get_frontmatter. stops_step; [stops_step|].
  destruct (search_frontmatter _); stops_step.
Qed.

Lemma stops_update_frontmatter (path : str) (updates : list (str * pyvalue)) :
  stops_at_failure env (update_frontmatter path updates).
Proof.
  unfold update_frontmatter. stops_step; [stops_step|].
  destruct (search_frontmatter _); stops_step.
Qed.

Lemma stops_git_add (file : str) : stops_at_failure env (git_add env file).
Proof. unfold git_add. repeat stops_step. Qed.

Hint Resolve stops_get_frontmatter stops_update_frontmatter stops_git_add
  : stops.

Lemma stops_id_step (file : str) (frontmatter : gmap str str) :
  stops_at_failure env (id_step env file frontmatter).
Proof.
  unfold id_step. destruct (frontmatter !! s2l "id"); repeat stops_step.
Qed.

Lemma stops_draft_step (file : str) (frontmatter : gmap str str) :
  stops_at_failure env (draft_step env file frontmatter).
Proof. unfold draft_step. repeat case_bool_decide; repeat stops_step. Qed.

Lemma stops_reading_time_step (file : str) :
  stops_at_failure env (reading_time_step env file).
Proof. unfold reading_time_step. repeat stops_step. Qed.

Hint Resolve stops_id_step stops_draft_step stops_reading_time_step : stops.

Lemma stops_process_file (file : str) :
  stops_at_failure env (process_file env file).
Proof. unfold process_file. repeat stops_step. Qed.

Hint Resolve stops_process_file : stops.

Lemma stops_main_body : stops_at_failure env (main_body env).
Proof.
  unfold main_body. repeat stops_step.
  unfold staged_files. destruct (collect_files _) as [l|e] eqn:E; [stops_step|].
  apply stops_raise. rewrite (collect_files_raises _ _ E). discriminate.
Qed.

Lemma main_world (w : World) :
  files (fst (main env w)) = files (fst (main_body env w))
  /\ trace (fst (main env w)) = trace (fst (main_body env w)).
Proof.
  unfold main. destruct (main_body env w) as [w' [a|e]]; [split; reflexivity|].
  destruct (is_CalledProcessError e); [split; reflexivity|].
  destruct (is_Exception e); split; reflexivity.
Qed.

Lemma raised_by_None (cmd : list str) (n : nat) :
  raised_by cmd (run_outcome env n cmd) = None -> succeeded env n cmd.
Proof.
  unfold raised_by, succeeded.
  destruct (run_outcome env n cmd) as [code out| |]; try discriminate.
  destruct (Z.eqb_spec code 0) as [->|]; [eauto|discriminate].
Qed.

End Processes.

(** X1: the hook stops at the first process that fails.  Every process
    of a run of [main] other than the last one started has returned
    zero. *)
Theorem main_stops_at_first_failure
    (env : Env) (w : World) (n : nat) (cmd : list str) :
  (length (trace w) <= n)%nat ->
  trace (fst (main env w)) !! n = Some cmd ->
  (S n < length (trace (fst (main env w))))%nat ->
  succeeded env n cmd.
Proof.
  intros Hn Hcmd Hlast. rewrite (proj2 (main_world env w)) in Hcmd, Hlast.
  destruct (stops_main_body env w) as [new [Ht [Hs _]]].
  rewrite Ht in Hcmd, Hlast. rewrite lookup_app_r in Hcmd by exact Hn.
  rewrite length_app in Hlast.
  apply raised_by_None.
  specialize (Hs (n - length (trace w))%nat cmd Hcmd).
  replace (length (trace w) + (n - length (trace w)))%nat with n in Hs by lia.
  apply Hs. left. lia.
Qed.

Lemma main_stops_at_first_failure_witness :
  let env := quiet_env (status_line "M" "post.mdx") in
  let w := one_file (s2l "post.mdx") post_regular in
  (length (trace w) <= 1)%nat
  /\ trace (fst (main env w)) !! 1%nat = Some [s2l "git"; s2l "add"; s2l "post.mdx"]
  /\ (2 < length (trace (fst (main env w))))%nat
  /\ succeeded env 1 [s2l "git"; s2l "add"; s2l "post.mdx"].
Proof.
  cbv zeta.
  assert (H1 : (length (trace (one_file (s2l "post.mdx") post_regular)) <= 1)%nat)
    by (vm_compute; lia).
  assert (H2 : trace (fst (main (quiet_env (status_line "M" "post.mdx"))
                             (one_file (s2l "post.mdx") post_regular))) !! 1%nat
               = Some [s2l "git"; s2l "add"; s2l "post.mdx"])
    by (vm_compute; reflexivity).
  assert (H3 : (2 < length (trace (fst (main (quiet_env (status_line "M" "post.mdx"))
                                          (one_file (s2l "post.mdx") post_regular)))))%nat)
    by (vm_compute; lia).
  split; [exact H1|]. split; [exact H2|]. split; [exact H3|].
  exact (main_stops_at_first_failure _ _ _ _ H1 H2 H3).
Defined.

(** X2: a process whose program is not found, such as a lint runner that
    is not installed, makes [main] print the unexpected-error message of
    its [FileNotFoundError] as the last thing it does and return
    normally. *)
Theorem main_reports_missing_program
    (env : Env) (w : World) (n : nat) (cmd : list str) :
  (length (trace w) <= n)%nat ->
  trace (fst (main env w)) !! n = Some cmd ->
  run_outcome env n cmd = NotFound ->
  snd (main env w) = None
  /\ last (printed (fst (main env w)))
     = Some (MsgUnexpected (FileNotFoundError (hd [] cmd))).
Proof.
  intros Hn Hcmd Hout. rewrite (proj2 (main_world env w)) in Hcmd.
  destruct (stops_main_body env w) as [new [Ht [_ [Hf _]]]].
  rewrite Ht in Hcmd. rewrite lookup_app_r in Hcmd by exact Hn.
  specialize (Hf (n - length (trace w))%nat cmd (FileNotFoundError (hd [] cmd)) Hcmd).
  replace (length (trace w) + (n - length (trace w)))%nat with n in Hf by lia.
  rewrite Hout in Hf. specialize (Hf eq_refl).
  unfold main. destruct (main_body env w) as [w' r]. cbn [snd] in Hf. subst r.
  cbn. split; [reflexivity|]. apply last_snoc.
Qed.

Lemma main_reports_missing_program_witness :
  let w := one_file (s2l "post.mdx") post_regular in
  (length (trace w) <= 2)%nat
  /\ trace (fst (main no_bun_env w)) !! 2%nat = Some lint_staged
  /\ run_outcome no_bun_env 2 lint_staged = NotFound
  /\ snd (main no_bun_env w) = None
  /\ last (printed (fst (main no_bun_env w)))
     = Some (MsgUnexpected (FileNotFoundError (hd [] lint_staged))).
Proof.
  cbv zeta.
  assert (H1 : (length (trace (one_file (s2l "post.mdx") post_regular)) <= 2)%nat)
    by (vm_compute; lia).
  assert (H2 : trace (fst (main no_bun_env (one_file (s2l "post.mdx") post_regular)))
               !! 2%nat = Some lint_staged) by (vm_compute; reflexivity).
  assert (H3 : run_outcome no_bun_env 2 lint_staged = NotFound)
    by (vm_compute; reflexivity).
  split; [exact H1|]. split; [exact H2|]. split; [exact H3|].
  exact (main_reports_missing_program _ _ _ _ H1 H2 H3).
Defined.

(** X4: an interrupted process ends the run: [KeyboardInterrupt] leaves
    [main], which neither of its [except] clauses catches. *)
Theorem main_propagates_interrupt
    (env : Env) (w : World) (n : nat) (cmd : list str) :
  (length (trace w) <= n)%nat ->
  trace (fst (main env w)) !! n = Some cmd ->
  run_outcome env n cmd = Interrupted ->
  snd (main env w) = Some KeyboardInterrupt.
Proof.
  intros Hn Hcmd Hout. rewrite (proj2 (main_world env w)) in Hcmd.
  destruct (stops_main_body env w) as [new [Ht [_ [Hf _]]]].
  rewrite Ht in Hcmd. rewrite lookup_app_r in Hcmd by exact Hn.
  specialize (Hf (n - length (trace w))%nat cmd KeyboardInterrupt Hcmd).
  replace (length (trace w) + (n - length (trace w)))%nat with n in Hf by lia.
  rewrite Hout in Hf. specialize (Hf eq_refl).
  unfold main. destruct (main_body env w) as [w' r]. cbn [snd] in Hf. subst r.
  reflexivity.
Qed.

Lemma main_propagates_interrupt_witness :
  let w := one_file (s2l "post.mdx") post_regular in
  (length (trace w) <= 1)%nat
  /\ trace (fst (main interrupted_env w)) !! 1%nat = Some git_update_index
  /\ run_outcome interrupted_env 1 git_update_index = Interrupted
  /\ snd (main interrupted_env w) = Some KeyboardInterrupt.
Proof.
  cbv zeta.
  assert (H1 : (length (trace (one_file (s2l "post.mdx") post_regular)) <= 1)%nat)
    by (vm_compute; lia).
  assert (H2 : trace (fst (main interrupted_env (one_file (s2l "post.mdx") post_regular)))
               !! 1%nat = Some git_update_index) by (vm_compute; reflexivity).
  assert (H3 : run_outcome interrupted_env 1 git_update_index = Interrupted)
    by (vm_compute; reflexivity).
  split; [exact H1|]. split; [exact H2|]. split; [exact H3|].
  exact (main_propagates_interrupt _ _ _ _ H1 H2 H3).
Defined.

(** ** The files that a run touches *)

Section Frame.

Variable env : Env.

Lemma writes_nothing (P : str -> Prop) {A} (c : M A) :
  (forall w, files (fst (c w)) = files w) -> writes_within P c.
Proof. intros H w. rewrite H. split; reflexivity. Qed.

Lemma writes_weaken (P Q : str -> Prop) {A} (c : M A) :
  (forall p, P p -> Q p) -> writes_within P c -> writes_within Q c.
Proof.
  intros HPQ Hc w. destruct (Hc w) as [Hdom Hframe]. split; [exact Hdom|].
  intros p Hp. apply Hframe. intros HP. apply Hp, HPQ, HP.
Qed.

Lemma writes_bind (P : str -> Prop) {A B} (c : M A) (k : A -> M B) :
  writes_within P c -> (forall a, writes_within P (k a)) ->
  writes_within P (bind c k).
Proof.
  intros Hc Hk w. unfold bind. destruct (Hc w) as [Hdom Hframe].
  destruct (c w) as [w1 [a|e]]; cbn [fst] in *; [|split; assumption].
  destruct (Hk a w1) as [Hdom' Hframe']. split.
  - rewrite Hdom'. exact Hdom.
  - intros p Hp. rewrite (Hframe' p Hp). apply Hframe, Hp.
Qed.

Lemma writes_ret (P : str -> Prop) {A} (a : A) : writes_within P (ret a).
Proof. apply writes_nothing. reflexivity. Qed.

Lemma writes_raise (P : str -> Prop) {A} (e : exn) : writes_within P (@raise A e).
Proof. apply writes_nothing. reflexivity. Qed.

Lemma writes_print (P : str -> Prop) (m : message) : writes_within P (print m).
Proof. apply writes_nothing. reflexivity. Qed.

Lemma writes_read_file (P : str -> Prop) (path : str) :
  writes_within P (read_file path).
Proof.
  apply writes_nothing. intros w. unfold read_file.
  destruct (files w !! path); reflexivity.
Qed.

Lemma writes_now (P : str -> Prop) : writes_within P (now env).
Proof. apply writes_nothing. reflexivity. Qed.

Lemma writes_fresh_uuid (P : str -> Prop) : writes_within P (fresh_uuid env).
Proof. apply writes_nothing. reflexivity. Qed.

Lemma writes_subprocess_run (P : str -> Prop) (cmd : list str) :
  writes_within P (subprocess_run env cmd).
Proof.
  apply writes_nothing. intros w. unfold subprocess_run.
  destruct (run_outcome env _ _) as [code out| |];
    [destruct (code =? 0)| |]; reflexivity.
Qed.

Lemma writes_get_frontmatter (P : str -> Prop) (path : str) :
  writes_within P (get_frontmatter path).
Proof.
  apply writes_nothing. intros w. unfold get_frontmatter, bind, read_file.
  destruct (files w !! path); [|reflexivity].
  destruct (search_frontmatter _); reflexivity.
Qed.

(** [update_frontmatter] writes the one file that it has read. *)
Lemma writes_update_frontmatter (path : str) (updates : list (str * pyvalue)) :
  writes_within (fun p => p = path) (update_frontmatter path updates).
Proof.
  intros w. unfold update_frontmatter, bind, read_file.
  destruct (files w !! path) as [content|] eqn:Hfile; [|split; reflexivity].
  destruct (search_frontmatter content); [|split; reflexivity].
  cbn [write_file fst files]. split.
  - apply dom_insert_lookup_L. rewrite Hfile. eexists. reflexivity.
  - intros p Hp. apply lookup_insert_ne. intros ->. apply Hp. reflexivity.
Qed.

Lemma writes_git_add (P : str -> Prop) (file : str) :
  writes_within P (git_add env file).
Proof.
  unfold git_add. apply writes_bind; [apply writes_subprocess_run|].
  intros _. apply writes_ret.
Qed.

Create HintDb writes.

Hint Resolve writes_ret writes_raise writes_print writes_read_file writes_now
  writes_fresh_uuid writes_subprocess_run writes_get_frontmatter
  writes_update_frontmatter writes_git_add : writes.

Ltac writes_step :=
  first [ solve [auto with writes]
        | apply writes_bind; [|intros ?] ].

Lemma writes_id_step (file : str) (frontmatter : gmap str str) :
  writes_within (fun p => p = file) (id_step env file frontmatter).
Proof.
  unfold id_step. destruct (frontmatter !! s2l "id"); repeat writes_step.
Qed.

Lemma writes_draft_step (file : str) (frontmatter : gmap str str) :
  writes_within (fun p => p = file) (draft_step env file frontmatter).
Proof. unfold draft_step. repeat case_bool_decide; repeat writes_step. Qed.

Lemma writes_reading_time_step (file : str) :
  writes_within (fun p => p = file) (reading_time_step env file).
Proof. unfold reading_time_step. repeat writes_step. Qed.

Hint Resolve writes_id_step writes_draft_step writes_reading_time_step : writes.

Lemma writes_process_file (file : str) :
  writes_within (fun p => p = file) (process_file env file).
Proof. unfold process_file. repeat writes_step. Qed.

Lemma writes_for_each (staged : list str) :
  writes_within (fun p => In p staged) (for_each (process_file env) staged).
Proof.
  induction staged as [|file staged IH]; cbn [for_each].
  - apply writes_ret.
  - apply writes_bind.
    + apply (writes_weaken (fun p => p = file)); [|apply writes_process_file].
      intros p ->. left. reflexivity.
    + intros _. apply (writes_weaken (fun p => In p staged)); [|exact IH].
      intros p Hp. right. exact Hp.
Qed.

Lemma writes_after_git_diff (stdout : str) :
  writes_within
    (fun p => exists staged,
                collect_files (splitlines stdout) = Ok staged /\ In p staged)
    (after_git_diff env stdout).
Proof.
  unfold after_git_diff, staged_files.
  destruct (collect_files (splitlines stdout)) as [staged|e].
  - assert (H : writes_within (fun p => In p staged)
                  (for_each (process_file env) staged >>
                   subprocess_run env git_update_index >>
                   subprocess_run env lint_staged >> ret tt)).
    { apply writes_bind; [apply writes_for_each|]. intros _. repeat writes_step. }
    intros w. destruct (H w) as [Hdom Hframe]. split; [exact Hdom|].
    intros p Hp. apply Hframe. intros Hin. apply Hp. eauto.
  - apply writes_nothing. intros w. reflexivity.
Qed.

End Frame.

(** X5: the hook never creates and never removes a file: after [main]
    the working tree has the files it had before. *)
Theorem main_keeps_the_files (env : Env) (w : World) :
  dom (files (fst (main env w))) = dom (files w).
Proof.
  rewrite (proj1 (main_world env w)).
  change (main_body env) with (bind (subprocess_run env git_diff) (after_git_diff env)).
  apply (writes_bind (fun _ => True)).
  - apply writes_subprocess_run.
  - intros stdout.
    eapply writes_weaken; [|apply (writes_after_git_diff env stdout)].
    intros p _. exact I.
Qed.

(** X6: the hook leaves alone every file that the comprehension over the
    output of [git diff] did not collect: such a file has after [main]
    the content it had before. *)
Theorem main_writes_only_staged_files (env : Env) (w : World) (p : str) :
  (forall stdout staged,
     run_outcome env (length (trace w)) git_diff = Completed 0 stdout ->
     collect_files (splitlines stdout) = Ok staged ->
     ~ In p staged) ->
  files (fst (main env w)) !! p = files w !! p.
Proof.
  intros Hp. rewrite (proj1 (main_world env w)).
  change (main_body env) with (bind (subprocess_run env git_diff) (after_git_diff env)).
  unfold bind, subprocess_run.
  destruct (run_outcome env (length (trace w)) git_diff) as [code stdout| |] eqn:Hout;
    [|reflexivity|reflexivity].
  destruct (Z.eqb_spec code 0) as [->|]; [|reflexivity].
  destruct (writes_after_git_diff env stdout
              {| files := files w; printed := printed w;
                 trace := trace w ++ [git_diff] |}) as [_ Hframe].
  rewrite Hframe; [reflexivity|].
  intros [staged [Hcollect Hin]]. exact (Hp stdout staged eq_refl Hcollect Hin).
Qed.

Lemma main_writes_only_staged_files_witness :
  let env := quiet_env (status_line "M" "post.mdx") in
  let w := two_files (s2l "post.mdx") post_regular (s2l "notes.mdx") post_regular in
  (forall stdout staged,
     run_outcome env (length (trace w)) git_diff = Completed 0 stdout ->
     collect_files (splitlines stdout) = Ok staged ->
     ~ In (s2l "notes.mdx") staged)
  /\ files (fst (main env w)) !! s2l "notes.mdx" = Some post_regular
  /\ files (fst (main env w)) !! s2l "post.mdx" <> Some post_regular.
Proof.
  cbv zeta.
  assert (H : forall stdout staged,
             run_outcome (quiet_env (status_line "M" "post.mdx"))
               (length (trace (two_files (s2l "post.mdx") post_regular
                                 (s2l "notes.mdx") post_regular))) git_diff
             = Completed 0 stdout ->
             collect_files (splitlines stdout) = Ok staged ->
             ~ In (s2l "notes.mdx") staged).
  { intros stdout staged Hrun. vm_compute in Hrun. injection Hrun as <-.
    intros Hc. vm_compute in Hc. injection Hc as <-.
    intros [Heq|[]]. discriminate Heq. }
  split; [exact H|]. split.
  - rewrite (main_writes_only_staged_files _ _ _ H). vm_compute. reflexivity.
  - vm_compute. discriminate.
Defined.

(** ** Documents that the hook can not rewrite *)

(** X7: a collected path that is not in the working tree stops the run
    right after [git diff]: [main] prints the unexpected-error message of
    the [FileNotFoundError], starts no further process, processes none of
    the files that follow, and returns normally. *)
Theorem main_stops_at_missing_file
    (env : Env) (w : World) (stdout file : str) (rest : list str) :
  run_outcome env (length (trace w)) git_diff = Completed 0 stdout ->
  collect_files (splitlines stdout) = Ok (file :: rest) ->
  files w !! file = None ->
  main env w
  = ({| files := files w;
        printed := printed w ++ [MsgChecking file; MsgUnexpected (FileNotFoundError file)];
        trace := trace w ++ [git_diff] |}, None).
Proof.
  intros Hrun Hcollect Hfile.
  unfold main, main_body, bind, subprocess_run. rewrite Hrun. cbn [Z.eqb].
  unfold staged_files. rewrite Hcollect. cbn [ret for_each].
  unfold bind, process_file, bind, print, get_frontmatter, bind, read_file.
  cbn [files]. rewrite Hfile. cbn. rewrite <- app_assoc. reflexivity.
Qed.

Lemma main_stops_at_missing_file_witness :
  let env := quiet_env (status_line "M" "gone.mdx" ++ status_line "M" "post.mdx") in
  let w := one_file (s2l "post.mdx") post_regular in
  run_outcome env (length (trace w)) git_diff
  = Completed 0 (status_line "M" "gone.mdx" ++ status_line "M" "post.mdx")
  /\ collect_files (splitlines (status_line "M" "gone.mdx" ++ status_line "M" "post.mdx"))
     = Ok [s2l "gone.mdx"; s2l "post.mdx"]
  /\ files w !! s2l "gone.mdx" = None
  /\ main env w
     = ({| files := files w;
           printed := printed w ++ [MsgChecking (s2l "gone.mdx");
                                    MsgUnexpected (FileNotFoundError (s2l "gone.mdx"))];
           trace := trace w ++ [git_diff] |}, None).
Proof.
  cbv zeta.
  assert (H1 : run_outcome
                 (quiet_env (status_line "M" "gone.mdx" ++ status_line "M" "post.mdx"))
                 (length (trace (one_file (s2l "post.mdx") post_regular))) git_diff
               = Completed 0 (status_line "M" "gone.mdx" ++ status_line "M" "post.mdx"))
    by reflexivity.
  assert (H2 : collect_files
                 (splitlines (status_line "M" "gone.mdx" ++ status_line "M" "post.mdx"))
               = Ok [s2l "gone.mdx"; s2l "post.mdx"]) by (vm_compute; reflexivity).
  assert (H3 : files (one_file (s2l "post.mdx") post_regular) !! s2l "gone.mdx" = None)
    by (vm_compute; reflexivity).
  split; [exact H1|]. split; [exact H2|]. split; [exact H3|].
  exact (main_stops_at_missing_file _ _ _ _ _ H1 H2 H3).
Defined.

(** X8: a document without a frontmatter block, that is without two
    delimiters, is never modified: the loop body announces a new id for
    it, prints nothing else and leaves every file as it was. *)
Theorem process_file_without_frontmatter
    (env : Env) (w : World) (file content : str) :
  files w !! file = Some content ->
  search_frontmatter content = None ->
  files (fst (process_file env file w)) = files w
  /\ printed (fst (process_file env file w))
     = printed w ++ [MsgChecking file; MsgAddingId file].
Proof.
  intros Hfile Hnone.
  unfold process_file, bind, print, get_frontmatter, bind, read_file.
  cbn [files]. rewrite Hfile, Hnone. cbn [ret].
  change (parse_frontmatter []) with (∅ : gmap str str).
  unfold id_step. rewrite lookup_empty.
  unfold bind, fresh_uuid, print, update_frontmatter, bind, read_file.
  cbn [files]. rewrite Hfile, Hnone. cbn [ret].
  unfold git_add, bind, subprocess_run. cbn [trace files printed].
  destruct (run_outcome env _ _) as [code out| |];
    [destruct (code =? 0)| |]; cbn [ret fst files printed];
    try (split; [reflexivity|rewrite <- app_assoc; reflexivity]).
  unfold draft_step. rewrite lookup_empty.
  rewrite !bool_decide_eq_false_2 by discriminate. cbn [ret].
  unfold reading_time_step, bind, read_file. cbn [files]. rewrite Hfile.
  unfold update_frontmatter, bind, read_file. cbn [files]. rewrite Hfile, Hnone.
  cbn [ret]. unfold git_add, bind, subprocess_run. cbn [trace files printed].
  destruct (run_outcome env _ _) as [code' out'| |];
    [destruct (code' =? 0)| |]; cbn [ret fst files printed];
    (split; [reflexivity|rewrite <- app_assoc; reflexivity]).
Qed.

Lemma process_file_without_frontmatter_witness :
  let env := quiet_env (status_line "M" "post.mdx") in
  let w := one_file (s2l "post.mdx") post_bare in
  files w !! s2l "post.mdx" = Some post_bare
  /\ search_frontmatter post_bare = None
  /\ files (fst (process_file env (s2l "post.mdx") w)) = files w
  /\ printed (fst (process_file env (s2l "post.mdx") w))
     = printed w ++ [MsgChecking (s2l "post.mdx"); MsgAddingId (s2l "post.mdx")].
Proof.
  cbv zeta.
  assert (H1 : files (one_file (s2l "post.mdx") post_bare) !! s2l "post.mdx"
               = Some post_bare) by (vm_compute; reflexivity).
  assert (H2 : search_frontmatter post_bare = None) by (vm_compute; reflexivity).
  split; [exact H1|]. split; [exact H2|].
  exact (process_file_without_frontmatter _ _ _ _ H1 H2).
Defined.

(** ** What one substitution does *)

Section OneSubstitution.

Lemma span_decompose (f : ascii -> bool) (s : str) :
  s = fst (span f s) ++ snd (span f s).
Proof.
  induction s as [|c s IH]; [reflexivity|]. cbn [span].
  destruct (f c); [|reflexivity].
  destruct (span f s) as [a b]. cbn [fst snd app] in *. f_equal. exact IH.
Qed.

Lemma span_rest (f : ascii -> bool) (s : str) :
  match snd (span f s) with
  | [] => True
  | c :: _ => f c = false
  end.
Proof.
  induction s as [|c s IH]; [exact I|]. cbn [span].
  destruct (f c) eqn:E; [|exact E].
  destruct (span f s) as [a b]. exact IH.
Qed.

Lemma span_app (f : ascii -> bool) (a rest : str) :
  forallb f a = true ->
  match rest with [] => True | c :: _ => f c = false end ->
  span f (a ++ rest) = (a, rest).
Proof.
  intros Ha Hrest. induction a as [|c a IH].
  - destruct rest as [|c rest]; [reflexivity|]. cbn [app span].
    rewrite Hrest. reflexivity.
  - cbn [forallb] in Ha. apply andb_true_iff in Ha as [Hc Ha].
    cbn [app span]. rewrite Hc, (IH Ha). reflexivity.
Qed.

Lemma after_match_length (t : str) : (length (after_match t) <= length t)%nat.
Proof.
  unfold after_match.
  pose proof (f_equal (@length ascii) (span_decompose isspace t)) as H1.
  pose proof (f_equal (@length ascii)
                (span_decompose isdot (snd (span isspace t)))) as H2.
  rewrite length_app in H1, H2. lia.
Qed.

Lemma drop_app_length (a b : str) : drop (length a) (a ++ b) = b.
Proof. induction a as [|c a IH]; [reflexivity|exact IH]. Qed.

(** The substitution, read at the start of a text. *)
Lemma re_sub_key_at_start (key repl s : str) :
  re_sub_key key repl s =
  if startswith (key ++ [COLON]) s
  then repl ++ re_sub_key key repl (after_match (drop (length key + 1) s))
  else match s with
       | [] => []
       | c :: s' => c :: re_sub_key key repl s'
       end.
Proof.
  destruct s as [|c s].
  - simp re_sub_key. destruct key; reflexivity.
  - rewrite re_sub_key_cons. unfold match_key_at.
    destruct (startswith (key ++ [COLON]) (c :: s)) eqn:Hs; [|reflexivity].
    set (t := drop (length key + 1) (c :: s)).
    pose proof (startswith_true _ _ Hs) as E.
    rewrite length_app in E. cbn [length] in E. fold t in E. clearbody t.
    destruct (span isspace t) as [ws r1] eqn:E1.
    destruct (span isdot r1) as [line r2] eqn:E2.
    unfold after_match. rewrite E1. cbn [snd]. rewrite E2. cbn [snd].
    f_equal. f_equal.
    pose proof (span_decompose isspace t) as D1. rewrite E1 in D1. cbn [fst snd] in D1.
    pose proof (span_decompose isdot r1) as D2. rewrite E2 in D2. cbn [fst snd] in D2.
    assert (Es : c :: s = ((key ++ [COLON]) ++ ws ++ line) ++ r2).
    { rewrite E, D1, D2, <- !app_assoc. reflexivity. }
    replace (length key + 1 + length ws + length line)%nat
      with (S (length key + length ws + length line)) by lia.
    cbn [Nat.pred].
    change (drop (length key + length ws + length line) s)
      with (drop (S (length key + length ws + length line)) (c :: s)).
    rewrite Es.
    replace (S (length key + length ws + length line))
      with (length ((key ++ [COLON]) ++ ws ++ line))
      by (rewrite !length_app; cbn [length]; lia).
    apply drop_app_length.
Qed.

Lemma startswith_app_short (p s t : str) :
  (length p <= length s)%nat -> startswith p (s ++ t) = startswith p s.
Proof.
  revert s. induction p as [|a p IH]; intros s Hlen; [reflexivity|].
  destruct s as [|b s]; [cbn in Hlen; lia|].
  cbn [app startswith]. f_equal. apply IH. cbn [length] in Hlen. lia.
Qed.

(** The text before the first [key:] is kept. *)
Lemma re_sub_key_before (key repl pre t : str) :
  contains (key ++ [COLON]) (pre ++ key) = false ->
  re_sub_key key repl (pre ++ key ++ COLON :: t)
  = pre ++ re_sub_key key repl (key ++ COLON :: t).
Proof.
  induction pre as [|c pre IH]; intros H; [reflexivity|].
  cbn [app contains] in H. apply orb_false_iff in H as [H1 H2].
  assert (Hs : startswith (key ++ [COLON]) (c :: pre ++ key ++ COLON :: t) = false).
  { replace (c :: pre ++ key ++ COLON :: t) with ((c :: pre ++ key) ++ COLON :: t)
      by (cbn [app]; rewrite <- app_assoc; reflexivity).
    rewrite startswith_app_short; [exact H1|].
    rewrite length_app. cbn [length]. rewrite length_app. lia. }
  cbn [app]. rewrite (re_sub_key_at_start key repl (c :: _)), Hs.
  f_equal. apply IH, H2.
Qed.

Lemma re_sub_key_at_key (key repl t : str) :
  re_sub_key key repl (key ++ COLON :: t)
  = repl ++ re_sub_key key repl (after_match t).
Proof.
  rewrite re_sub_key_at_start.
  replace (key ++ COLON :: t) with ((key ++ [COLON]) ++ t)
    by (rewrite <- app_assoc; reflexivity).
  rewrite startswith_app.
  replace (length key + 1)%nat with (length (key ++ [COLON]))
    by (rewrite length_app; reflexivity).
  rewrite drop_app_length. reflexivity.
Qed.

Lemma startswith_key_newline (key s : str) :
  forallb isword key = true -> startswith (key ++ [COLON]) (LF :: s) = false.
Proof.
  intros Hkey. destruct key as [|k key]; [reflexivity|].
  cbn [forallb] in Hkey. apply andb_true_iff in Hkey as [Hk _].
  cbn [app startswith].
  destruct (Ascii.eqb_spec k LF) as [->|]; [discriminate Hk|reflexivity].
Qed.

Lemma re_sub_key_newline (key repl s : str) :
  forallb isword key = true ->
  re_sub_key key repl (LF :: s) = LF :: re_sub_key key repl s.
Proof.
  intros Hkey. rewrite re_sub_key_at_start, (startswith_key_newline _ _ Hkey).
  reflexivity.
Qed.

Lemma after_match_text (ws old rest : str) :
  forallb isspace ws = true ->
  begins_with_text old ->
  forallb isdot old = true ->
  match rest with [] => True | c :: _ => c = LF end ->
  after_match (ws ++ old ++ rest) = rest.
Proof.
  intros Hws Hold Hline Hrest. unfold after_match.
  rewrite (span_app isspace ws (old ++ rest) Hws).
  - cbn [snd]. rewrite (span_app isdot old rest Hline); [reflexivity|].
    destruct rest as [|c rest]; [exact I|]. subst c. reflexivity.
  - destruct old as [|c old]; [contradiction|]. exact Hold.
Qed.

Lemma after_match_blank (ws : str) :
  forallb isspace ws = true -> after_match ws = [].
Proof.
  intros Hws. unfold after_match.
  rewrite <- (app_nil_r ws) at 1. rewrite (span_app isspace ws [] Hws I).
  reflexivity.
Qed.

End OneSubstitution.

(** X9: what one substitution replaces, for a key of word characters
    and a replacement without backslash.  At the first [key:] of a block
    the substitution takes the key, the whole run of whitespace after the
    colon, line ends included, and the text that follows up to the end of
    its line, and puts the replacement there; the text before and the
    lines after, which have no [key:], are kept.  With one space after
    the colon this rewrites the value of the key in place; with an empty
    value the whitespace runs over the line end and the next line that
    has text is lost. *)
Theorem re_sub_key_replaces_through_whitespace
    (key repl pre ws old post : str) :
  forallb isword key = true ->
  no_backslash repl ->
  contains (key ++ [COLON]) (pre ++ key) = false ->
  forallb isspace ws = true ->
  begins_with_text old ->
  forallb isdot old = true ->
  contains (key ++ [COLON]) post = false ->
  re_sub_key key repl (pre ++ key ++ COLON :: ws ++ old ++ LF :: post)
  = pre ++ repl ++ LF :: post.
Proof.
  intros Hkey _ Hpre Hws Hold Hline Hpost.
  rewrite (re_sub_key_before _ _ _ _ Hpre), re_sub_key_at_key.
  rewrite (after_match_text ws old (LF :: post) Hws Hold Hline eq_refl).
  rewrite (re_sub_key_newline _ _ _ Hkey), (re_sub_key_absent _ _ _ Hpost).
  reflexivity.
Qed.

Lemma re_sub_key_replaces_through_whitespace_witness :
  let key := s2l "modDatetime" in
  let pre := text ["id: 7"] in
  let post := text ["title: Hello"] in
  forallb isword key = true
  /\ no_backslash (s2l "modDatetime: ")
  /\ contains (key ++ [COLON]) (pre ++ key) = false
  /\ forallb isspace [LF] = true
  /\ begins_with_text (s2l "draft: false")
  /\ forallb isdot (s2l "draft: false") = true
  /\ contains (key ++ [COLON]) post = false
  /\ re_sub_key key (s2l "modDatetime: ")
       (text ["id: 7"; "modDatetime:"; "draft: false"; "title: Hello"])
     = text ["id: 7"; "modDatetime: "; "title: Hello"].
Proof.
  cbv zeta.
  assert (H1 : forallb isword (s2l "modDatetime") = true) by reflexivity.
  assert (H0 : no_backslash (s2l "modDatetime: ")) by reflexivity.
  assert (H2 : contains (s2l "modDatetime" ++ [COLON])
                 (text ["id: 7"] ++ s2l "modDatetime") = false)
    by (vm_compute; reflexivity).
  assert (H3 : forallb isspace [LF] = true) by reflexivity.
  assert (H4 : begins_with_text (s2l "draft: false")) by reflexivity.
  assert (H5 : forallb isdot (s2l "draft: false") = true) by reflexivity.
  assert (H6 : contains (s2l "modDatetime" ++ [COLON]) (text ["title: Hello"]) = false)
    by (vm_compute; reflexivity).
  repeat (split; [assumption|]).
  exact (re_sub_key_replaces_through_whitespace
           (s2l "modDatetime") (s2l "modDatetime: ") (text ["id: 7"]) [LF]
           (s2l "draft: false") (text ["title: Hello"]) H1 H0 H2 H3 H4 H5 H6).
Defined.

(** X10: a key with an empty value at the end of the block loses its line
    end, for a key of word characters and a replacement without
    backslash.  When nothing but whitespace follows the first [key:] of a
    block, the substitution replaces all of it: the rewritten block ends
    with the replacement, without the [\n] that the block ended with. *)
Theorem re_sub_key_at_end_drops_newline (key repl pre ws : str) :
  forallb isword key = true ->
  no_backslash repl ->
  contains (key ++ [COLON]) (pre ++ key) = false ->
  forallb isspace ws = true ->
  re_sub_key key repl (pre ++ key ++ COLON :: ws) = pre ++ repl.
Proof.
  intros _ _ Hpre Hws.
  rewrite (re_sub_key_before _ _ _ _ Hpre), re_sub_key_at_key.
  rewrite (after_match_blank _ Hws). simp re_sub_key. rewrite app_nil_r.
  reflexivity.
Qed.

Lemma re_sub_key_at_end_drops_newline_witness :
  forallb isword (s2l "modDatetime") = true
  /\ no_backslash (s2l "modDatetime: ")
  /\ contains (s2l "modDatetime" ++ [COLON]) (text ["id: 7"] ++ s2l "modDatetime") = false
  /\ forallb isspace [LF] = true
  /\ re_sub_key (s2l "modDatetime") (s2l "modDatetime: ")
       (text ["id: 7"; "modDatetime:"])
     = text ["id: 7"] ++ s2l "modDatetime: ".
Proof.
  assert (H1 : contains (s2l "modDatetime" ++ [COLON])
                 (text ["id: 7"] ++ s2l "modDatetime") = false)
    by (vm_compute; reflexivity).
  assert (H2 : forallb isspace [LF] = true) by reflexivity.
  assert (H3 : forallb isword (s2l "modDatetime") = true) by reflexivity.
  assert (H4 : no_backslash (s2l "modDatetime: ")) by reflexivity.
  split; [exact H3|]. split; [exact H4|]. split; [exact H1|]. split; [exact H2|].
  exact (re_sub_key_at_end_drops_newline
           (s2l "modDatetime") (s2l "modDatetime: ") (text ["id: 7"]) [LF]
           H3 H4 H1 H2).
Defined.

(** ** Substituting twice *)

Section Twice.

Lemma after_match_rest (t : str) :
  match after_match t with
  | [] => True
  | c :: _ => c = LF
  end.
Proof.
  unfold after_match.
  pose proof (span_rest isdot (snd (span isspace t))) as H.
  destruct (snd (span isdot (snd (span isspace t)))) as [|c r]; [exact I|].
  unfold isdot in H. apply negb_false_iff, Ascii.eqb_eq in H. exact H.
Qed.

Lemma re_sub_key_rest (key repl rest : str) :
  forallb isword key = true ->
  match rest with [] => True | c :: _ => c = LF end ->
  match re_sub_key key repl rest with [] => True | c :: _ => c = LF end.
Proof.
  intros Hkey Hrest. destruct rest as [|c rest].
  - simp re_sub_key; exact I.
  - subst c. rewrite (re_sub_key_newline _ _ _ Hkey). reflexivity.
Qed.

Lemma startswith_cons_re_sub_key (key tail : str) (c : ascii) (s : str) :
  forallb isword key = true ->
  startswith (key ++ [COLON]) (c :: re_sub_key key (key ++ COLON :: tail) s)
  = startswith (key ++ [COLON]) (c :: s).
Proof.
  intros Hkey. destruct key as [|k key]; [reflexivity|].
  cbn [app startswith]. f_equal.
  change (k :: key ++ COLON :: tail) with ((k :: key) ++ COLON :: tail).
  apply startswith_re_sub_key.
  cbn [forallb] in Hkey. apply andb_true_iff in Hkey as [_ Hkey].
  apply isword_not_colon, Hkey.
Qed.

Lemma re_sub_key_twice (key value : str) (n : nat) :
  forallb isword key = true ->
  begins_with_text value ->
  forallb isdot value = true ->
  forall s, (length s <= n)%nat ->
  re_sub_key key (key ++ s2l ": " ++ value)
    (re_sub_key key (key ++ s2l ": " ++ value) s)
  = re_sub_key key (key ++ s2l ": " ++ value) s.
Proof.
  intros Hkey Hval Hline.
  change (key ++ s2l ": " ++ value) with (key ++ COLON :: [ascii_of_nat 32] ++ value).
  set (repl := key ++ COLON :: [ascii_of_nat 32] ++ value).
  induction n as [|n IH]; intros s Hlen.
  - destruct s; [|cbn in Hlen; lia]. simp re_sub_key; reflexivity.
  - rewrite (re_sub_key_at_start key repl s).
    destruct (startswith (key ++ [COLON]) s) eqn:Hs.
    + set (rest := after_match (drop (length key + 1) s)).
      assert (Hrest : (length rest <= n)%nat).
      { pose proof (after_match_length (drop (length key + 1) s)) as H.
        fold rest in H. rewrite length_drop in H.
        destruct s; [destruct key; discriminate Hs|]. cbn [length] in *. lia. }
      unfold repl at 2. rewrite <- app_assoc. cbn [app].
      rewrite re_sub_key_at_key. fold repl.
      change (ascii_of_nat 32 :: value ++ re_sub_key key repl rest)
        with ([ascii_of_nat 32] ++ value ++ re_sub_key key repl rest).
      rewrite (after_match_text [ascii_of_nat 32] value _ eq_refl Hval Hline
                 (re_sub_key_rest key repl rest Hkey (after_match_rest _))).
      rewrite (IH rest Hrest). reflexivity.
    + destruct s as [|c s]; [simp re_sub_key; reflexivity|].
      rewrite (re_sub_key_at_start key repl (c :: _)).
      unfold repl at 1. rewrite (startswith_cons_re_sub_key _ _ _ _ Hkey).
      rewrite Hs. fold repl. rewrite (IH s); [reflexivity|].
      cbn [length] in Hlen. lia.
Qed.

End Twice.

(** X11: for a key of word characters, the substitution of a value
    without backslash that begins with text and stays on its line is
    idempotent: applied to its own result it changes nothing
    more.  (An empty value is different: its second substitution finds
    only whitespace after the colon and runs into the next line.) *)
Theorem re_sub_key_idempotent (key value s : str) :
  forallb isword key = true ->
  no_backslash value ->
  begins_with_text value ->
  forallb isdot value = true ->
  re_sub_key key (key ++ s2l ": " ++ value)
    (re_sub_key key (key ++ s2l ": " ++ value) s)
  = re_sub_key key (key ++ s2l ": " ++ value) s.
Proof.
  intros Hkey _ Hval Hline.
  apply (re_sub_key_twice key value (length s) Hkey Hval Hline s). lia.
Qed.

Lemma re_sub_key_idempotent_witness :
  let block := text ["id: 7"; "readingTime:"; "draft: false"; "readingTime: 9"] in
  forallb isword (s2l "readingTime") = true
  /\ no_backslash (s2l "3")
  /\ begins_with_text (s2l "3")
  /\ forallb isdot (s2l "3") = true
  /\ re_sub_key (s2l "readingTime") (s2l "readingTime" ++ s2l ": " ++ s2l "3") block
     = text ["id: 7"; "readingTime: 3"; "readingTime: 3"]
  /\ re_sub_key (s2l "readingTime") (s2l "readingTime" ++ s2l ": " ++ s2l "3")
       (re_sub_key (s2l "readingTime") (s2l "readingTime" ++ s2l ": " ++ s2l "3") block)
     = re_sub_key (s2l "readingTime") (s2l "readingTime" ++ s2l ": " ++ s2l "3") block.
Proof.
  cbv zeta.
  assert (H1 : forallb isword (s2l "readingTime") = true) by reflexivity.
  assert (H0 : no_backslash (s2l "3")) by reflexivity.
  assert (H2 : begins_with_text (s2l "3")) by reflexivity.
  assert (H3 : forallb isdot (s2l "3") = true) by reflexivity.
  split; [exact H1|]. split; [exact H0|]. split; [exact H2|]. split; [exact H3|].
  split; [vm_compute; reflexivity|].
  exact (re_sub_key_idempotent _ _ _ H1 H0 H2 H3).
Defined.

(** With an empty value the second substitution is not the first. *)
Example re_sub_key_empty_value_twice :
  let block := text ["modDatetime: 2020"; "draft: false"] in
  re_sub_key (s2l "modDatetime") (s2l "modDatetime: ") block
  = text ["modDatetime: "; "draft: false"]
  /\ re_sub_key (s2l "modDatetime") (s2l "modDatetime: ")
       (re_sub_key (s2l "modDatetime") (s2l "modDatetime: ") block)
     = text ["modDatetime: "].
Proof. cbv zeta. split; vm_compute; reflexivity. Qed.

(** ** The lines of the frontmatter *)

Section Parse.

Lemma islinebreak_not_word (c : ascii) : isword c = true -> islinebreak c = false.
Proof.
  destruct c as [[] [] [] [] [] [] [] []]; intros H;
    solve [reflexivity | discriminate H].
Qed.

Lemma splitlines_from_text_line (l cur rest : str) :
  forallb (fun c => negb (islinebreak c)) l = true ->
  splitlines_from cur (l ++ LF :: rest) = (rev cur ++ l) :: splitlines_from [] rest.
Proof.
  revert cur. induction l as [|c l IH]; intros cur H.
  - cbn [app splitlines_from]. change (islinebreak LF) with true.
    rewrite app_nil_r. destruct rest as [|d rest]; [reflexivity|].
    change (Ascii.eqb LF CR) with false. reflexivity.
  - cbn [forallb] in H. apply andb_true_iff in H as [Hc Hl].
    apply negb_true_iff in Hc.
    cbn [app splitlines_from]. rewrite Hc, (IH (c :: cur) Hl). cbn [rev].
    rewrite <- app_assoc. reflexivity.
Qed.

Lemma render_line_chars (kv : str * str) :
  regular_pair kv ->
  forallb (fun c => negb (islinebreak c)) (render_line kv) = true.
Proof.
  intros [_ [Hk [Hv _]]]. unfold render_line. rewrite !forallb_app.
  apply andb_true_iff. split; [|apply andb_true_iff; split; [reflexivity|exact Hv]].
  rewrite forallb_forall in *. intros c Hc.
  rewrite (islinebreak_not_word c (Hk c Hc)). reflexivity.
Qed.

Lemma splitlines_render_block (kvs : list (str * str)) :
  Forall regular_pair kvs ->
  splitlines (render_block kvs) = map render_line kvs.
Proof.
  unfold splitlines, render_block.
  induction 1 as [|kv kvs Hkv _ IH]; [reflexivity|].
  cbn [map concat]. rewrite <- app_assoc. cbn [app].
  rewrite splitlines_from_text_line by (apply render_line_chars, Hkv).
  cbn [rev app]. f_equal. exact IH.
Qed.

Lemma match_key_value_render_line (kv : str * str) :
  regular_pair kv -> match_key_value (render_line kv) = Some kv.
Proof.
  destruct kv as [k v]. intros [Hne [Hk [Hv Hstart]]]. cbn [fst snd] in *.
  unfold match_key_value, render_line. cbn [fst snd].
  change (s2l ": " ++ v) with (COLON :: ascii_of_nat 32 :: v).
  rewrite (span_app isword k (COLON :: ascii_of_nat 32 :: v) Hk eq_refl).
  destruct k as [|c k]; [contradiction|].
  rewrite Ascii.eqb_refl.
  assert (Hws : span isspace (ascii_of_nat 32 :: v) = ([ascii_of_nat 32], v)).
  { apply (span_app isspace [ascii_of_nat 32] v eq_refl).
    destruct Hstart as [->|Hstart]; [exact I|].
    destruct v as [|d v]; [exact I|exact Hstart]. }
  rewrite Hws. cbn [snd].
  assert (Hdot : span isdot v = (v, [])).
  { rewrite <- (app_nil_r v) at 1. apply span_app; [|exact I].
    rewrite forallb_forall in *. intros d Hd. specialize (Hv d Hd).
    unfold isdot. destruct (Ascii.eqb_spec d LF) as [->|]; [discriminate Hv|reflexivity]. }
  rewrite Hdot. reflexivity.
Qed.

Lemma parse_lines_from (kvs : list (str * str)) (d : gmap str str) :
  Forall regular_pair kvs ->
  fold_left
    (fun frontmatter line =>
       match match_key_value line with
       | Some (group1, group2) => <[group1 := strip_quotes group2]> frontmatter
       | None => frontmatter
       end)
    (map render_line kvs) d
  = fold_left (fun d kv => <[fst kv := strip_quotes (snd kv)]> d) kvs d.
Proof.
  intros H. revert d. induction H as [|kv kvs Hkv _ IH]; intros d; [reflexivity|].
  cbn [map fold_left]. rewrite (match_key_value_render_line kv Hkv).
  destruct kv as [k v]. apply IH.
Qed.

End Parse.

(** X12: reading back a block of [key: value] lines.  For keys that are
    words and values without line boundary that do not begin with
    whitespace, the dict that [main] builds from the block is the dict of
    the pairs: every line sets its key, a later line replaces an earlier
    one of the same key, and the double quotes at both ends of a value
    are stripped. *)
Theorem parse_frontmatter_render_block (kvs : list (str * str)) :
  Forall regular_pair kvs ->
  parse_frontmatter (render_block kvs) = dict_of kvs.
Proof.
  intros H. unfold parse_frontmatter, dict_of.
  rewrite (splitlines_render_block kvs H). apply parse_lines_from, H.
Qed.

Lemma parse_frontmatter_render_block_witness :
  let kvs := [(s2l "draft", s2l "true"); (s2l "title", [DQUOTE] ++ s2l "A: b" ++ [DQUOTE]);
              (s2l "draft", [DQUOTE] ++ s2l "first" ++ [DQUOTE]); (s2l "tags", [])] in
  Forall regular_pair kvs
  /\ parse_frontmatter (render_block kvs) = dict_of kvs
  /\ dict_of kvs !! s2l "draft" = Some (s2l "first")
  /\ dict_of kvs !! s2l "title" = Some (s2l "A: b")
  /\ dict_of kvs !! s2l "tags" = Some [].
Proof.
  cbv zeta.
  assert (H : Forall regular_pair
                [(s2l "draft", s2l "true");
                 (s2l "title", [DQUOTE] ++ s2l "A: b" ++ [DQUOTE]);
                 (s2l "draft", [DQUOTE] ++ s2l "first" ++ [DQUOTE]);
                 (s2l "tags", [])]).
  { assert (R : forall k v : str,
               k <> [] -> forallb isword k = true ->
               forallb (fun c => negb (islinebreak c)) v = true ->
               v = [] \/ begins_with_text v -> regular_pair (k, v))
      by (intros; repeat split; assumption).
    repeat (constructor;
            [apply R; [discriminate|reflexivity|reflexivity
                      |first [left; reflexivity|right; reflexivity]]|]).
    constructor. }
  split; [exact H|]. split; [exact (parse_frontmatter_render_block _ H)|].
  repeat split; vm_compute; reflexivity.
Defined.

(** ** Writing the block back *)

Section WriteBack.

Lemma replace_from_find (old new : str) (s : str) (i : nat) :
  old <> [] ->
  find old s = Some i ->
  replace_from old new s
  = take i s ++ new ++ replace_from old new (drop (i + length old) s).
Proof.
  intros Hold. revert i. induction s as [|c s IH]; intros i Hfind.
  - cbn [find] in Hfind. destruct old as [|o old]; [contradiction|].
    discriminate Hfind.
  - cbn [find] in Hfind. rewrite replace_from_cons.
    destruct (startswith old (c :: s)) eqn:Hs.
    + injection Hfind as <-. destruct old as [|o old]; [contradiction|].
      reflexivity.
    + destruct (find old s) as [j|] eqn:Hj; [|discriminate Hfind].
      injection Hfind as <-. rewrite (IH j eq_refl). reflexivity.
Qed.

Lemma replace_from_absent (old new s : str) :
  contains old s = false -> replace_from old new s = s.
Proof.
  induction s as [|c s IH]; intros H.
  - simp replace_from; reflexivity.
  - cbn [contains] in H. apply orb_false_iff in H as [H1 H2].
    rewrite replace_from_cons, H1, (IH H2). reflexivity.
Qed.

Lemma replace_nonempty (old new s : str) :
  old <> [] -> replace old new s = replace_from old new s.
Proof. intros H. destruct old; [contradiction|reflexivity]. Qed.

End WriteBack.

(** X13: how the rewritten block gets into the file, for updates of the
    kind the hook makes (keys of word characters, values without
    backslash).  The text of the
    block, when it is not empty, is replaced where it first occurs in the
    document and at every later occurrence as well, so that a copy of
    the block in the body is rewritten with it; when the text occurs only
    once, the document is the same before and after that place. *)
Theorem update_frontmatter_replaces_every_copy
    (path content frontmatter : str) (updates : list (str * pyvalue))
    (w : World) (i : nat) :
  Forall plain_update updates ->
  files w !! path = Some content ->
  search_frontmatter content = Some frontmatter ->
  frontmatter <> [] ->
  find frontmatter content = Some i ->
  let new_frontmatter := apply_updates updates frontmatter in
  let rest := drop (i + length frontmatter) content in
  update_frontmatter path updates w
  = write_file path
      (take i content ++ new_frontmatter
       ++ replace frontmatter new_frontmatter rest) w
  /\ (contains frontmatter rest = false ->
      update_frontmatter path updates w
      = write_file path (take i content ++ new_frontmatter ++ rest) w).
Proof.
  intros _ Hfile Hfm Hne Hfind new_frontmatter rest.
  assert (Hrun : update_frontmatter path updates w
                 = write_file path
                     (take i content ++ new_frontmatter
                      ++ replace frontmatter new_frontmatter rest) w).
  { unfold update_frontmatter, bind, read_file. rewrite Hfile, Hfm.
    fold new_frontmatter. rewrite !(replace_nonempty _ _ _ Hne).
    rewrite (replace_from_find _ _ _ _ Hne Hfind). reflexivity. }
  split; [exact Hrun|]. intros Habsent. rewrite Hrun.
  rewrite (replace_nonempty _ _ _ Hne), (replace_from_absent _ _ _ Habsent).
  reflexivity.
Qed.

Lemma update_frontmatter_replaces_every_copy_witness :
  let block := text ["draft: first"] in
  let doc := text ["---"; "draft: first"; "---"; "Quoted:"; "draft: first"; "End."] in
  let w := one_file (s2l "post.mdx") doc in
  let updates := [(s2l "draft", PyStr (s2l "false"))] in
  Forall plain_update updates
  /\ files w !! s2l "post.mdx" = Some doc
  /\ search_frontmatter doc = Some block
  /\ block <> []
  /\ find block doc = Some 4%nat
  /\ files (fst (update_frontmatter (s2l "post.mdx") updates w)) !! s2l "post.mdx"
     = Some (text ["---"; "draft: false"; "---"; "Quoted:"; "draft: false"; "End."]).
Proof.
  cbv zeta.
  assert (H1 : files (one_file (s2l "post.mdx")
                        (text ["---"; "draft: first"; "---"; "Quoted:";
                               "draft: first"; "End."])) !! s2l "post.mdx"
               = Some (text ["---"; "draft: first"; "---"; "Quoted:";
                             "draft: first"; "End."]))
    by (vm_compute; reflexivity).
  assert (H2 : search_frontmatter
                 (text ["---"; "draft: first"; "---"; "Quoted:"; "draft: first"; "End."])
               = Some (text ["draft: first"])) by (vm_compute; reflexivity).
  assert (H3 : text ["draft: first"] <> []) by discriminate.
  assert (H4 : find (text ["draft: first"])
                 (text ["---"; "draft: first"; "---"; "Quoted:"; "draft: first"; "End."])
               = Some 4%nat) by (vm_compute; reflexivity).
  assert (H0 : Forall plain_update [(s2l "draft", PyStr (s2l "false"))])
    by (constructor; [split; reflexivity|constructor]).
  split; [exact H0|].
  split; [exact H1|]. split; [exact H2|]. split; [exact H3|]. split; [exact H4|].
  rewrite (proj1 (update_frontmatter_replaces_every_copy
                    _ _ _ [(s2l "draft", PyStr (s2l "false"))] _ _ H0 H1 H2 H3 H4)).
  vm_compute. reflexivity.
Defined.

(** ** A run without failure *)

Section Success.

Variable env : Env.
Hypothesis Hall : all_succeed env.
Variable paths : list str.

Lemma completes_quiet {A} (c : M A) (a : A) :
  (forall w, c w = (w, Ok a)) -> completes paths c.
Proof.
  intros H w _. rewrite H. cbn [fst snd]. split; [eauto|]. split; [reflexivity|].
  exists []. rewrite app_nil_r. split; [reflexivity|constructor].
Qed.

Lemma completes_ret {A} (a : A) : completes paths (ret a).
Proof. apply (completes_quiet _ a). reflexivity. Qed.

Lemma completes_print (m : message) :
  is_error m = false -> completes paths (print m).
Proof.
  intros Hm w _. cbn. split; [eauto|]. split; [reflexivity|].
  exists [m]. split; [reflexivity|]. constructor; [exact Hm|constructor].
Qed.

Lemma completes_read_file (path : str) :
  In path paths -> completes paths (read_file path).
Proof.
  intros Hin w Hw. unfold read_file.
  destruct (Hw path Hin) as [content Hc]. rewrite Hc. cbn [fst snd].
  split; [eauto|]. split; [reflexivity|].
  exists []. rewrite app_nil_r. split; [reflexivity|constructor].
Qed.

Lemma completes_subprocess_run (cmd : list str) :
  completes paths (subprocess_run env cmd).
Proof.
  intros w _. unfold subprocess_run.
  destruct (Hall (length (trace w)) cmd) as [out Hout]. rewrite Hout.
  cbn. split; [eauto|]. split; [reflexivity|].
  exists []. rewrite app_nil_r. split; [reflexivity|constructor].
Qed.

Lemma completes_bind {A B} (c : M A) (k : A -> M B) :
  completes paths c -> (forall a, completes paths (k a)) ->
  completes paths (bind c k).
Proof.
  intros Hc Hk w Hw. unfold bind.
  destruct (Hc w Hw) as [[a Ha] [Hdom [msgs [Hp Hm]]]].
  destruct (c w) as [w1 r]. cbn [fst snd] in *. subst r.
  assert (Hw1 : forall f, In f paths -> is_Some (files w1 !! f)).
  { intros f Hf. apply elem_of_dom. rewrite Hdom. apply elem_of_dom, Hw, Hf. }
  destruct (Hk a w1 Hw1) as [Hok [Hdom' [msgs' [Hp' Hm']]]].
  split; [exact Hok|]. split; [rewrite Hdom'; exact Hdom|].
  exists (msgs ++ msgs'). split.
  - rewrite Hp', Hp, app_assoc. reflexivity.
  - apply Forall_app. split; assumption.
Qed.

Lemma completes_now : completes paths (now env).
Proof.
  intros w _. cbn. split; [eauto|]. split; [reflexivity|].
  exists []. rewrite app_nil_r. split; [reflexivity|constructor].
Qed.

Lemma completes_fresh_uuid : completes paths (fresh_uuid env).
Proof.
  intros w _. cbn. split; [eauto|]. split; [reflexivity|].
  exists []. rewrite app_nil_r. split; [reflexivity|constructor].
Qed.

Lemma completes_get_frontmatter (path : str) :
  In path paths -> completes paths (get_frontmatter path).
Proof.
  intros Hin. unfold get_frontmatter.
  apply completes_bind; [apply completes_read_file, Hin|].
  intros content. destruct (search_frontmatter content); apply completes_ret.
Qed.

Lemma completes_update_frontmatter (path : str) (updates : list (str * pyvalue)) :
  In path paths -> completes paths (update_frontmatter path updates).
Proof.
  intros Hin w Hw. unfold update_frontmatter, bind, read_file.
  destruct (Hw path Hin) as [content Hc]. rewrite Hc.
  destruct (search_frontmatter content); cbn [write_file ret fst snd files printed].
  - split; [eauto|]. split.
    + apply dom_insert_lookup_L. rewrite Hc. eauto.
    + exists []. rewrite app_nil_r. split; [reflexivity|constructor].
  - split; [eauto|]. split; [reflexivity|].
    exists []. rewrite app_nil_r. split; [reflexivity|constructor].
Qed.

Lemma completes_git_add (file : str) : completes paths (git_add env file).
Proof.
  unfold git_add. apply completes_bind; [apply completes_subprocess_run|].
  intros _. apply completes_ret.
Qed.

Lemma completes_process_file (file : str) :
  In file paths -> completes paths (process_file env file).
Proof.
  intros Hin. unfold process_file.
  apply completes_bind; [apply completes_print; reflexivity|]. intros _.
  apply completes_bind; [apply completes_get_frontmatter, Hin|]. intros s.
  apply completes_bind; [|intros _; apply completes_bind; [|intros _]].
  - unfold id_step. destruct (_ !! _); [apply completes_ret|].
    apply completes_bind; [apply completes_fresh_uuid|]. intros u.
    apply completes_bind; [apply completes_print; reflexivity|]. intros _.
    apply completes_bind; [apply completes_update_frontmatter, Hin|]. intros _.
    apply completes_git_add.
  - unfold draft_step. repeat case_bool_decide; [| |apply completes_ret].
    + apply completes_bind; [apply completes_print; reflexivity|]. intros _.
      apply completes_bind; [apply completes_now|]. intros t.
      apply completes_bind; [apply completes_update_frontmatter, Hin|]. intros _.
      apply completes_git_add.
    + apply completes_bind; [apply completes_print; reflexivity|]. intros _.
      apply completes_bind; [apply completes_update_frontmatter, Hin|]. intros _.
      apply completes_git_add.
  - unfold reading_time_step.
    apply completes_bind; [apply completes_read_file, Hin|]. intros content.
    apply completes_bind; [apply completes_update_frontmatter, Hin|]. intros _.
    apply completes_git_add.
Qed.

Lemma completes_for_each (staged : list str) :
  (forall f, In f staged -> In f paths) ->
  completes paths (for_each (process_file env) staged).
Proof.
  induction staged as [|file staged IH]; intros Hsub; cbn [for_each].
  - apply completes_ret.
  - apply completes_bind.
    + apply completes_process_file, Hsub. left. reflexivity.
    + intros _. apply IH. intros f Hf. apply Hsub. right. exact Hf.
Qed.

End Success.

(** X14: a run without failure.  When every process returns zero and every
    collected file is in the working tree, [main] returns normally, prints
    neither of its two error messages, and ends the run with
    [git update-index --again] followed by [bun run lint-staged]. *)
Theorem main_completes
    (env : Env) (w : World) (stdout : str) (staged : list str) :
  all_succeed env ->
  run_outcome env (length (trace w)) git_diff = Completed 0 stdout ->
  collect_files (splitlines stdout) = Ok staged ->
  (forall f, In f staged -> is_Some (files w !! f)) ->
  snd (main env w) = None
  /\ (exists msgs,
        printed (fst (main env w)) = printed w ++ msgs
        /\ Forall (fun m => is_error m = false) msgs)
  /\ exists earlier,
       trace (fst (main env w)) = earlier ++ [git_update_index; lint_staged].
Proof.
  intros Hall Hrun Hcollect Hfiles.
  set (w1 := {| files := files w; printed := printed w;
                trace := trace w ++ [git_diff] |}).
  assert (E1 : main_body env w
               = (for_each (process_file env) staged >>
                  subprocess_run env git_update_index >>
                  subprocess_run env lint_staged >> ret tt) w1).
  { unfold main_body, bind at 1, subprocess_run at 1. rewrite Hrun. cbn [Z.eqb].
    unfold staged_files. rewrite Hcollect. reflexivity. }
  destruct (completes_for_each env Hall staged staged (fun f H => H) w1 Hfiles)
    as [[[] Hok] [_ [msgs [Hp Hm]]]].
  destruct (for_each (process_file env) staged w1) as [w2 r] eqn:E2.
  cbn [fst snd] in Hok, Hp. subst r.
  destruct (Hall (length (trace w2)) git_update_index) as [out3 Hout3].
  destruct (Hall (length (trace w2 ++ [git_update_index])) lint_staged)
    as [out4 Hout4].
  assert (E3 : main_body env w
               = ({| files := files w2; printed := printed w2;
                     trace := (trace w2 ++ [git_update_index]) ++ [lint_staged] |},
                  Ok tt)).
  { rewrite E1. unfold bind at 1. rewrite E2.
    unfold bind at 1, subprocess_run at 1. rewrite Hout3. cbn [Z.eqb].
    unfold bind, subprocess_run. cbn [trace]. rewrite Hout4. reflexivity. }
  unfold main. rewrite E3. cbn [fst snd printed trace].
  split; [reflexivity|]. split.
  - exists msgs. split; [exact Hp|exact Hm].
  - exists (trace w2). rewrite <- app_assoc. reflexivity.
Qed.

Lemma main_completes_witness :
  let env := quiet_env (status_line "M" "post.mdx") in
  let w := one_file (s2l "post.mdx") post_regular in
  all_succeed env
  /\ run_outcome env (length (trace w)) git_diff
     = Completed 0 (status_line "M" "post.mdx")
  /\ collect_files (splitlines (status_line "M" "post.mdx")) = Ok [s2l "post.mdx"]
  /\ (forall f, In f [s2l "post.mdx"] -> is_Some (files w !! f))
  /\ snd (main env w) = None
  /\ (exists msgs,
        printed (fst (main env w)) = printed w ++ msgs
        /\ Forall (fun m => is_error m = false) msgs)
  /\ exists earlier,
       trace (fst (main env w)) = earlier ++ [git_update_index; lint_staged].
Proof.
  cbv zeta.
  assert (H1 : all_succeed (quiet_env (status_line "M" "post.mdx"))).
  { intros n cmd. unfold succeeded, quiet_env. cbn [run_outcome].
    case_bool_decide; eauto. }
  assert (H2 : run_outcome (quiet_env (status_line "M" "post.mdx"))
                 (length (trace (one_file (s2l "post.mdx") post_regular))) git_diff
               = Completed 0 (status_line "M" "post.mdx")) by reflexivity.
  assert (H3 : collect_files (splitlines (status_line "M" "post.mdx"))
               = Ok [s2l "post.mdx"]) by (vm_compute; reflexivity).
  assert (H4 : forall f, In f [s2l "post.mdx"] ->
                 is_Some (files (one_file (s2l "post.mdx") post_regular) !! f)).
  { intros f [<-|[]]. exists post_regular. vm_compute. reflexivity. }
  split; [exact H1|]. split; [exact H2|]. split; [exact H3|]. split; [exact H4|].
  exact (main_completes _ _ _ _ H1 H2 H3 H4).
Defined.

Lemma collect_files_exact_witness :
  let entries := [(s2l "M", s2l "blog/post.mdx"); (s2l "A", s2l "new.mdx");
                  (s2l "M", s2l "notes.txt"); (s2l "D", s2l "old.mdx");
                  (s2l "M", s2l "about.mdx")] in
  Forall (fun entry => field (fst entry) /\ field (snd entry)) entries
  /\ collect_files (splitlines (name_status entries))
     = Ok [s2l "blog/post.mdx"; s2l "about.mdx"].
Proof.
  cbv zeta.
  assert (H : Forall (fun entry => field (fst entry) /\ field (snd entry))
                [(s2l "M", s2l "blog/post.mdx"); (s2l "A", s2l "new.mdx");
                 (s2l "M", s2l "notes.txt"); (s2l "D", s2l "old.mdx");
                 (s2l "M", s2l "about.mdx")]).
  { repeat (constructor;
            [split; (split; [discriminate|reflexivity])|]).
    constructor. }
  split; [exact H|].
  rewrite (collect_files_exact _ H). vm_compute. reflexivity.
Defined.

(** ** Longer texts *)

Section Monotone.

Lemma pow2_pos (n : Z) : 0 < 2 ^ n \/ 2 ^ n = 0.
Proof.
  destruct (Z.le_gt_cases 0 n); [left; apply Z.pow_pos_nonneg; lia|].
  right. apply Z.pow_neg_r. lia.
Qed.

Lemma pow2_split (n k : Z) : 0 <= n -> 0 <= k -> 2 ^ (n + k) = 2 ^ n * 2 ^ k.
Proof. intros. apply Z.pow_add_r; assumption. Qed.

(** The logarithm brackets the quotient: with [K] large enough to make
    the exponents positive, [b * 2^(L+K) <= a * 2^K < b * 2^(L+K+1)]. *)
Lemma quot_log2_spec (a b K : Z) :
  0 < a -> 0 < b -> 0 <= K -> 0 <= quot_log2 a b + K ->
  b * 2 ^ (quot_log2 a b + K) <= a * 2 ^ K
  /\ a * 2 ^ K < b * 2 ^ (quot_log2 a b + K + 1).
Proof.
  intros Ha Hb HK HL. unfold quot_log2 in *.
  destruct (Z.log2_spec a Ha) as [La Ua]. destruct (Z.log2_spec b Hb) as [Lb Ub].
  pose proof (Z.log2_nonneg a) as Na. pose proof (Z.log2_nonneg b) as Nb.
  set (la := Z.log2 a) in *. set (lb := Z.log2 b) in *.
  rewrite <- Z.add_1_r in Ua, Ub.
  assert (P0 : forall n, 0 <= n -> 0 < 2 ^ n) by (intros; apply Z.pow_pos_nonneg; lia).
  destruct (Z.leb_spec (b * 2 ^ Z.max 0 (la - lb)) (a * 2 ^ Z.max 0 (- (la - lb))))
    as [T|T].
  - (* L = d *)
    split.
    + destruct (Z.le_gt_cases 0 (la - lb)) as [Hd|Hd].
      * rewrite (Z.max_r 0 (la - lb)), (Z.max_l 0 (- (la - lb))) in T by lia.
        change (2 ^ 0) with 1 in T. rewrite pow2_split by lia.
        pose proof (P0 K HK). nia.
      * rewrite (Z.max_l 0 (la - lb)), (Z.max_r 0 (- (la - lb))) in T by lia.
        change (2 ^ 0) with 1 in T.
        replace K with (- (la - lb) + (la - lb + K)) at 2 by lia.
        rewrite (pow2_split (- (la - lb))) by lia.
        pose proof (P0 (la - lb + K) HL). nia.
    + (* a 2^K < 2^(la+1+K) <= b 2^(d+K+1) *)
      apply Z.lt_le_trans with (2 ^ (la + 1) * 2 ^ K).
      * pose proof (P0 K HK). nia.
      * rewrite <- pow2_split by lia.
        replace (la + 1 + K) with (lb + (la - lb + K + 1)) by lia.
        rewrite pow2_split by lia.
        pose proof (P0 (la - lb + K + 1) ltac:(lia)). nia.
  - (* L = d - 1 *)
    split.
    + (* b 2^(d-1+K) <= 2^(lb+1) 2^(d-1+K) = 2^(la+K) <= a 2^K *)
      apply Z.le_trans with (2 ^ la * 2 ^ K).
      * rewrite <- pow2_split by lia.
        replace (la + K) with (lb + 1 + (la - lb - 1 + K)) by lia.
        rewrite (pow2_split (lb + 1)) by lia.
        pose proof (P0 (la - lb - 1 + K) HL). nia.
      * pose proof (P0 K HK). nia.
    + replace (la - lb - 1 + K + 1) with (la - lb + K) by lia.
      destruct (Z.le_gt_cases 0 (la - lb)) as [Hd|Hd].
      * rewrite (Z.max_r 0 (la - lb)), (Z.max_l 0 (- (la - lb))) in T by lia.
        change (2 ^ 0) with 1 in T. rewrite pow2_split by lia.
        pose proof (P0 K HK). nia.
      * rewrite (Z.max_l 0 (la - lb)), (Z.max_r 0 (- (la - lb))) in T by lia.
        change (2 ^ 0) with 1 in T.
        replace K with (- (la - lb) + (la - lb + K)) at 1 by lia.
        rewrite (pow2_split (- (la - lb))) by lia.
        pose proof (P0 (la - lb + K) ltac:(lia)). nia.
Qed.


Lemma true_divide_round (a b : Z) :
  a <> 0 ->
  true_divide a b
  = (round_half_even (a * 2 ^ Z.max 0 (- (quot_log2 a b - 52)))
                     (b * 2 ^ Z.max 0 (quot_log2 a b - 52)),
     quot_log2 a b - 52).
Proof.
  intros Ha. unfold true_divide. destruct (Z.eqb_spec a 0); [contradiction|].
  reflexivity.
Qed.

Lemma round_half_even_bounds (num den : Z) :
  0 < den ->
  num / den <= round_half_even num den <= num / den + 1.
Proof.
  intros Hden. unfold round_half_even. destruct (_ || _); lia.
Qed.

Lemma round_half_even_monotone (num num' den : Z) :
  0 < den -> num <= num' ->
  round_half_even num den <= round_half_even num' den.
Proof.
  intros Hden Hle.
  pose proof (Z.div_le_mono num num' den Hden Hle) as Hq.
  destruct (Z.eq_dec (num / den) (num' / den)) as [E|NE].
  - pose proof (Z.div_mod num den ltac:(lia)) as D.
    pose proof (Z.div_mod num' den ltac:(lia)) as D'.
    unfold round_half_even. rewrite <- E. rewrite <- E in D'.
    set (r := num mod den) in *. set (r' := num' mod den) in *.
    set (q := num / den) in *.
    clearbody r r' q. clear E Hq.
    assert (Hr : r <= r') by nia.
    destruct ((den <? 2 * r) || ((den =? 2 * r) && Z.odd q)) eqn:U;
      [|destruct ((den <? 2 * r') || _); lia].
    assert (U' : (den <? 2 * r') || ((den =? 2 * r') && Z.odd q) = true).
    { apply orb_true_iff in U as [U|U].
      - apply Z.ltb_lt in U. apply orb_true_iff. left. apply Z.ltb_lt. lia.
      - apply andb_true_iff in U as [U1 U2]. apply Z.eqb_eq in U1.
        destruct (Z.eq_dec r r') as [<-|].
        + apply orb_true_iff. right. rewrite U2, andb_true_r. apply Z.eqb_eq. exact U1.
        + apply orb_true_iff. left. apply Z.ltb_lt. lia. }
    rewrite U'. lia.
  - pose proof (round_half_even_bounds num den Hden).
    pose proof (round_half_even_bounds num' den Hden). lia.
Qed.

Lemma mantissa_bounds (a b : Z) :
  0 < a -> 0 < b ->
  let e := quot_log2 a b - 52 in
  let num := a * 2 ^ Z.max 0 (- e) in
  let den := b * 2 ^ Z.max 0 e in
  0 < den /\ 2 ^ 52 * den <= num /\ num < 2 ^ 53 * den.
Proof.
  intros Ha Hb e num den.
  assert (P0 : forall n, 0 <= n -> 0 < 2 ^ n) by (intros; apply Z.pow_pos_nonneg; lia).
  assert (Hden : 0 < den) by (apply Z.mul_pos_pos; [lia|apply P0; lia]).
  split; [exact Hden|].
  destruct (Z.le_gt_cases 0 e) as [He|He].
  - destruct (quot_log2_spec a b 0 Ha Hb ltac:(lia) ltac:(lia)) as [L U].
    unfold num, den. rewrite (Z.max_l 0 (- e)), (Z.max_r 0 e) by lia.
    change (2 ^ 0) with 1 in *. rewrite Z.add_0_r in L, U.
    replace (quot_log2 a b) with (e + 52) in L by lia.
    replace (quot_log2 a b + 1) with (e + 53) in U by lia.
    rewrite pow2_split in L, U by lia. lia.
  - destruct (quot_log2_spec a b (- e) Ha Hb ltac:(lia) ltac:(lia)) as [L U].
    unfold num, den. rewrite (Z.max_r 0 (- e)), (Z.max_l 0 e) by lia.
    change (2 ^ 0) with 1.
    replace (quot_log2 a b + - e) with 52 in L by lia.
    replace (quot_log2 a b + - e + 1) with 53 in U by lia. lia.
Qed.

Lemma mantissa_range (a b : Z) :
  0 < a -> 0 < b ->
  2 ^ 52 <= fst (true_divide a b) <= 2 ^ 53.
Proof.
  intros Ha Hb. rewrite true_divide_round by lia. cbn [fst].
  destruct (mantissa_bounds a b Ha Hb) as [Hden [L U]].
  set (num := a * 2 ^ Z.max 0 (- (quot_log2 a b - 52))) in *.
  set (den := b * 2 ^ Z.max 0 (quot_log2 a b - 52)) in *.
  pose proof (round_half_even_bounds num den Hden) as B.
  assert (2 ^ 52 <= num / den) by (apply Z.div_le_lower_bound; lia).
  assert (num / den < 2 ^ 53) by (apply Z.div_lt_upper_bound; lia).
  lia.
Qed.

Lemma quot_log2_monotone (a a' b : Z) :
  0 < a -> a <= a' -> 0 < b -> quot_log2 a b <= quot_log2 a' b.
Proof.
  intros Ha Hle Hb.
  destruct (Z.le_gt_cases (quot_log2 a b) (quot_log2 a' b)) as [|Hgt]; [assumption|].
  exfalso.
  set (K := Z.abs (quot_log2 a b) + Z.abs (quot_log2 a' b)).
  destruct (quot_log2_spec a b K Ha Hb ltac:(lia) ltac:(lia)) as [L _].
  destruct (quot_log2_spec a' b K ltac:(lia) Hb ltac:(lia) ltac:(lia)) as [_ U].
  assert (HP : 2 ^ (quot_log2 a' b + K + 1) <= 2 ^ (quot_log2 a b + K))
    by (apply Z.pow_le_mono_r; lia).
  assert (0 < 2 ^ K) by (apply Z.pow_pos_nonneg; lia).
  nia.
Qed.

Lemma int_of_float_monotone (m m' e : Z) :
  m <= m' -> int_of_float (m, e) <= int_of_float (m', e).
Proof.
  intros H. unfold int_of_float. destruct (Z.leb_spec 0 e).
  - apply Z.mul_le_mono_nonneg_r; [apply Z.pow_nonneg; lia|exact H].
  - apply Z.div_le_mono; [apply Z.pow_pos_nonneg; lia|exact H].
Qed.

(** A power of two as a binary64 number. *)
Lemma int_of_float_below (m e : Z) :
  0 <= m <= 2 ^ 53 -> e < 0 -> int_of_float (m, e) <= 2 ^ 52.
Proof.
  intros Hm He. unfold int_of_float. destruct (Z.leb_spec 0 e); [lia|].
  apply Z.div_le_upper_bound; [apply Z.pow_pos_nonneg; lia|].
  assert (2 ^ 1 <= 2 ^ (- e)) by (apply Z.pow_le_mono_r; lia).
  change (2 ^ 1) with 2 in *. change (2 ^ 53) with (2 * 2 ^ 52) in Hm. nia.
Qed.

Lemma int_of_float_steps (m m' e e' : Z) :
  0 <= m <= 2 ^ 53 -> 2 ^ 52 <= m' -> e < e' ->
  int_of_float (m, e) <= int_of_float (m', e').
Proof.
  intros Hm Hm' He.
  assert (P0 : forall n, 0 <= n -> 0 < 2 ^ n) by (intros; apply Z.pow_pos_nonneg; lia).
  destruct (Z.le_gt_cases 0 e') as [He'|He'].
  - (* the larger number is at least 2^52 * 2^e' *)
    assert (Hx' : 2 ^ 52 * 2 ^ e' <= int_of_float (m', e')).
    { unfold int_of_float. destruct (Z.leb_spec 0 e'); [|lia].
      apply Z.mul_le_mono_nonneg_r; [apply Z.pow_nonneg; lia|exact Hm']. }
    destruct (Z.le_gt_cases 0 e) as [He0|He0].
    + assert (Hx : int_of_float (m, e) <= 2 ^ 53 * 2 ^ e).
      { unfold int_of_float. destruct (Z.leb_spec 0 e); [|lia].
        apply Z.mul_le_mono_nonneg_r; [apply Z.pow_nonneg; lia|lia]. }
      assert (2 ^ (e + 1) <= 2 ^ e') by (apply Z.pow_le_mono_r; lia).
      rewrite pow2_split in H by lia. change (2 ^ 1) with 2 in H.
      change (2 ^ 53) with (2 * 2 ^ 52) in Hx. pose proof (P0 e He0). nia.
    + pose proof (int_of_float_below m e Hm He0). pose proof (P0 e' He'). nia.
  - (* both exponents are negative *)
    unfold int_of_float.
    destruct (Z.leb_spec 0 e); [lia|]. destruct (Z.leb_spec 0 e'); [lia|].
    apply Z.div_le_lower_bound; [apply P0; lia|].
    (* 2^(-e') * (m / 2^(-e)) <= m' *)
    pose proof (P0 (- e) ltac:(lia)) as Pe. pose proof (P0 (- e') ltac:(lia)) as Pe'.
    assert (Hk : 2 ^ (- e) = 2 ^ (- e') * 2 ^ (e' - e))
      by (rewrite <- pow2_split by lia; f_equal; lia).
    assert (H2 : 2 <= 2 ^ (e' - e)).
    { change 2 with (2 ^ 1) at 1. apply Z.pow_le_mono_r; lia. }
    pose proof (Z.mul_div_le m (2 ^ (- e)) Pe) as Hq.
    assert (0 <= m / 2 ^ (- e)) by (apply Z.div_pos; lia).
    change (2 ^ 53) with (2 * 2 ^ 52) in Hm.
    (* 2^(-e') * q * 2 <= 2^(-e') * q * 2^(e'-e) = 2^(-e) * q <= m <= 2 * 2^52 *)
    nia.
Qed.

Lemma int_true_divide_monotone (a a' b : Z) :
  0 <= a -> a <= a' -> 0 < b ->
  int_of_float (true_divide a b) <= int_of_float (true_divide a' b).
Proof.
  intros Ha Hle Hb.
  destruct (Z.eq_dec a 0) as [->|Hnz].
  - change (int_of_float (true_divide 0 b)) with 0.
    apply int_true_divide_nonneg; lia.
  - pose proof (quot_log2_monotone a a' b ltac:(lia) Hle Hb) as HL.
    pose proof (mantissa_range a b ltac:(lia) Hb) as R.
    pose proof (mantissa_range a' b ltac:(lia) Hb) as R'.
    destruct (Z.eq_dec (quot_log2 a b) (quot_log2 a' b)) as [E|NE].
    + rewrite (true_divide_round a b), (true_divide_round a' b) by lia.
      rewrite <- E. apply int_of_float_monotone.
      apply round_half_even_monotone.
      * apply Z.mul_pos_pos; [lia|apply Z.pow_pos_nonneg; lia].
      * apply Z.mul_le_mono_nonneg_r; [apply Z.pow_nonneg; lia|lia].
    + rewrite (true_divide_round a b) in * by lia.
      rewrite (true_divide_round a' b) in * by lia.
      cbn [fst] in R, R'.
      apply int_of_float_steps; lia.
Qed.

End Monotone.

Lemma split_from_nonempty (cur s : str) :
  cur <> [] -> (1 <= length (split_from cur s))%nat.
Proof.
  revert cur. induction s as [|c s IH]; intros cur Hcur; cbn [split_from].
  - destruct cur; [contradiction|]. cbn. lia.
  - destruct (isspace c).
    + destruct cur; [contradiction|]. cbn [length]. lia.
    + apply IH. discriminate.
Qed.

Lemma split_from_app_length (cur t t' : str) :
  (length (split_from cur t) <= length (split_from cur (t ++ t')))%nat.
Proof.
  revert cur. induction t as [|c t IH]; intros cur.
  - cbn [app split_from]. destruct cur as [|x cur]; [cbn; lia|].
    apply (split_from_nonempty (x :: cur) t'). discriminate.
  - cbn [app split_from]. destruct (isspace c).
    + destruct cur; [apply IH|]. cbn [length]. specialize (IH []). lia.
    + apply IH.
Qed.

(** X16: a longer text never has a shorter reading time: appending text
    to a document does not lower [calculate_reading_time], for texts of
    every length, the rounding of the true division included. *)
Theorem reading_time_grows_with_text (text more : str) :
  calculate_reading_time text <= calculate_reading_time (text ++ more).
Proof.
  unfold calculate_reading_time.
  pose proof (split_from_app_length [] text more) as Hwords. fold (split text) in Hwords.
  fold (split (text ++ more)) in Hwords.
  pose proof (int_true_divide_monotone
                (Z.of_nat (length (split text)))
                (Z.of_nat (length (split (text ++ more)))) 200
                ltac:(lia) ltac:(lia) ltac:(lia)).
  lia.
Qed.

(** ** Regular blocks and short texts *)

Section RegularBlock.

Lemma contains_app_false (p a b : str) :
  contains p (a ++ b) = false -> contains p b = false.
Proof.
  induction a as [|c a IH]; intros H; [exact H|].
  cbn [app contains] in H. apply orb_false_iff in H as [_ H]. apply IH, H.
Qed.

Lemma startswith_longer (p s : str) :
  (length s < length p)%nat -> startswith p s = false.
Proof.
  revert s. induction p as [|a p IH]; intros s H; [cbn in H; lia|].
  destruct s as [|b s]; [reflexivity|]. cbn [startswith length] in *.
  rewrite IH by lia. apply andb_false_r.
Qed.

(** A line without [key:] is kept, and so is its line end. *)
Lemma re_sub_key_keeps_line (key repl line rest : str) :
  forallb isword key = true ->
  contains (key ++ [COLON]) line = false ->
  re_sub_key key repl (line ++ LF :: rest) = line ++ LF :: re_sub_key key repl rest.
Proof.
  intros Hkey. induction line as [|c line IH]; intros H.
  - apply (re_sub_key_newline _ _ _ Hkey).
  - cbn [contains] in H. apply orb_false_iff in H as [H1 H2].
    cbn [app]. rewrite (re_sub_key_at_start key repl (c :: _)).
    assert (Hs : startswith (key ++ [COLON]) (c :: line ++ LF :: rest) = false).
    { destruct (le_lt_dec (length (key ++ [COLON])) (length (c :: line))) as [Hle|Hlt].
      - change (c :: line ++ LF :: rest) with ((c :: line) ++ LF :: rest).
        rewrite startswith_app_short by exact Hle. exact H1.
      - (* the pattern would have to run over the line end *)
        destruct (startswith (key ++ [COLON]) (c :: line ++ LF :: rest)) eqn:E;
          [|reflexivity].
        exfalso. apply startswith_true in E.
        assert (Hin : In LF (key ++ [COLON])).
        { assert (Hn : nth (length (c :: line)) (key ++ [COLON]) COLON = LF).
          { change (c :: line ++ LF :: rest) with ((c :: line) ++ LF :: rest) in E.
            assert (E' : nth (length (c :: line)) ((c :: line) ++ LF :: rest) COLON = LF)
              by (rewrite app_nth2, Nat.sub_diag by lia; reflexivity).
            rewrite E in E'. rewrite app_nth1 in E' by exact Hlt. exact E'. }
          rewrite <- Hn. apply nth_In. exact Hlt. }
        apply in_app_or in Hin as [Hin|[Hin|[]]]; [|discriminate Hin].
        rewrite forallb_forall in Hkey. specialize (Hkey LF Hin). discriminate Hkey. }
    rewrite Hs. f_equal. apply IH, H2.
Qed.

Lemma re_sub_key_rewrites_line (key value old rest : str) :
  forallb isword key = true ->
  begins_with_text old ->
  forallb isdot old = true ->
  re_sub_key key (key ++ s2l ": " ++ value) (render_line (key, old) ++ LF :: rest)
  = render_line (key, value) ++ LF :: re_sub_key key (key ++ s2l ": " ++ value) rest.
Proof.
  intros Hkey Hold Hline. unfold render_line. cbn [fst snd].
  change (s2l ": " ++ old) with (COLON :: [ascii_of_nat 32] ++ old).
  rewrite <- !app_assoc. cbn [app].
  rewrite re_sub_key_at_key.
  change (ascii_of_nat 32 :: old ++ LF :: rest)
    with ([ascii_of_nat 32] ++ old ++ LF :: rest).
  rewrite (after_match_text [ascii_of_nat 32] old (LF :: rest) eq_refl Hold Hline eq_refl).
  rewrite (re_sub_key_newline _ _ _ Hkey). rewrite <- !app_assoc. reflexivity.
Qed.

End RegularBlock.

(** X17: on a block of regular lines the substitution does what the hook
    means it to do, for a key of word characters and a new value without
    backslash.  When every value begins with text and stays on its
    line, and no line of another key holds the text [key:], substituting
    for [key] rewrites the value of every line of [key] and leaves all
    other lines as they are. *)
Theorem re_sub_key_on_regular_block
    (key value : str) (kvs : list (str * str)) :
  forallb isword key = true ->
  no_backslash value ->
  Forall (regular_line_for key) kvs ->
  re_sub_key key (key ++ s2l ": " ++ value) (render_block kvs)
  = render_block (map (set_value key value) kvs).
Proof.
  intros Hkey _ H. induction H as [|[k v] kvs [Hv1 [Hv2 Hother]] _ IH].
  - simp re_sub_key; reflexivity.
  - unfold render_block in *. cbn [map concat]. rewrite <- !app_assoc. cbn [app].
    cbn [fst snd] in *. unfold set_value at 1. cbn [fst].
    case_bool_decide as Hk.
    + subst k. rewrite (re_sub_key_rewrites_line _ _ _ _ Hkey Hv1 Hv2), IH.
      reflexivity.
    + rewrite (re_sub_key_keeps_line _ _ _ _ Hkey (Hother Hk)), IH. reflexivity.
Qed.

Lemma re_sub_key_on_regular_block_witness :
  let kvs := [(s2l "id", s2l "7"); (s2l "draft", s2l "false");
              (s2l "modDatetime", s2l "2023-01-01T00:00:00Z");
              (s2l "readingTime", s2l "9")] in
  forallb isword (s2l "modDatetime") = true
  /\ no_backslash (s2l "2024-05-01Z")
  /\ Forall (regular_line_for (s2l "modDatetime")) kvs
  /\ re_sub_key (s2l "modDatetime") (s2l "modDatetime" ++ s2l ": " ++ s2l "2024-05-01Z")
       (render_block kvs)
     = render_block [(s2l "id", s2l "7"); (s2l "draft", s2l "false");
                     (s2l "modDatetime", s2l "2024-05-01Z");
                     (s2l "readingTime", s2l "9")].
Proof.
  cbv zeta.
  assert (H1 : forallb isword (s2l "modDatetime") = true) by reflexivity.
  assert (H2 : Forall (regular_line_for (s2l "modDatetime"))
                 [(s2l "id", s2l "7"); (s2l "draft", s2l "false");
                  (s2l "modDatetime", s2l "2023-01-01T00:00:00Z");
                  (s2l "readingTime", s2l "9")]).
  { repeat (constructor;
            [split; [reflexivity|split; [reflexivity|]];
             intros Hne; first [vm_compute; reflexivity|destruct (Hne eq_refl)]|]).
    constructor. }
  assert (H0 : no_backslash (s2l "2024-05-01Z")) by reflexivity.
  split; [exact H1|]. split; [exact H0|]. split; [exact H2|].
  rewrite (re_sub_key_on_regular_block _ (s2l "2024-05-01Z") _ H1 H0 H2).
  vm_compute. reflexivity.
Defined.

(** X18: one minute is the reading time of the texts of fewer than 200
    words, and of no other text. *)
Theorem reading_time_one_minute (text : str) :
  calculate_reading_time text = 1 <-> (length (split text) < 200)%nat.
Proof.
  unfold calculate_reading_time. set (words := Z.of_nat (length (split text))).
  split.
  - intros H. destruct (Z.lt_ge_cases words 200) as [|Hge]; [lia|].
    pose proof (int_true_divide_monotone 200 words 200 ltac:(lia) ltac:(lia) ltac:(lia))
      as Hmono.
    change (int_of_float (true_divide 200 200)) with 1 in Hmono. lia.
  - intros H. rewrite int_true_divide_200 by (unfold exact_below; lia).
    rewrite Z.div_small by lia. reflexivity.
Qed.
